(** * The Formula 1 season dashboard (visualization/app.py)

    A shallow embedding of the dashboard script: the two loaded tables,
    the year filter, the standings helpers, the chart builders and the
    top-level script, followed by the properties of the program.

    Tables are pandas data frames.  A frame is modelled row-wise as the
    list of its rows in order, each with its index label.  Numeric cells
    of the integer columns are [Z]; the float columns (points, lat, lng)
    are [Q], every finite float being a rational, compared as rationals.
    The one non-number pandas produces in this program, the NaN that
    [max] yields on an empty column, is [None]. *)

From Stdlib Require Import ZArith QArith List String Ascii Bool.
From Stdlib Require Import Permutation Sorted Lia DecimalString.
Import ListNotations.

Local Open Scope string_scope.
Local Open Scope Z_scope.

(** ** Data model *)

(** A row of data/processed/circuits.csv. *)
Module Circuit.
Record t : Type := mk {
  year : Z;
  round : Z;
  name : string;
  country : string;
  lat : Q;
  lng : Q
}.
End Circuit.

(** A row of data/processed/drivers.csv. *)
Module Driver.
Record t : Type := mk {
  year : Z;
  round : Z;
  code : string;
  forename : string;
  surname : string;
  number : Z;
  points : Q;
  position : Z
}.
End Driver.

(** A frame: rows in order, each with its index label.  After
    [read_csv] the labels are 0, 1, 2, ...; after [set_index] they are
    the values of the chosen column. *)
Definition Frame (R : Type) : Type := list (Z * R).

(** A driver row of a frame that has received the extra column "name". *)
Definition Named : Type := (Driver.t * string)%type.

(** The data frames the script handles, by their columns. *)
Inductive DataFrame : Type :=
| Circuits (rows : Frame Circuit.t)
| Drivers (rows : Frame Driver.t)
| DriversNamed (rows : Frame Named).

(** Exceptions.  [IndexError] and [KeyError] are the built-in ones the
    functions of the script raise; the remaining names are the errors
    of the documented taxonomy. *)
Inductive exn : Type :=
| IndexError
| KeyError
| DataUnavailable
| EmptyInput
| NotFound
| EmptyRankings.

Inductive result (A : Type) : Type :=
| Ok (a : A)
| Raise (e : exn).
Arguments Ok {A} a.
Arguments Raise {A} e.

(** [read_csv] numbers the rows from 0. *)
Fixpoint enumerate_from {R : Type} (i : Z) (l : list R) : Frame R :=
  match l with
  | [] => []
  | r :: l' => (i, r) :: enumerate_from (i + 1) l'
  end.

Definition read_csv {R : Type} (l : list R) : Frame R := enumerate_from 0 l.

(** ** Sorting

    [sort_values] is called without [kind], so pandas applies its
    default, "quicksort".  What a sort kind promises is that the result
    holds the same rows ordered by the key; the order among rows with
    equal keys is a property of the kind ("mergesort" and "stable" keep
    it, "quicksort" and "heapsort" do not promise to).  A kind is
    therefore a sorting routine together with that contract. *)

Definition ascending_by {R : Type} (key : R -> Q) : list R -> Prop :=
  StronglySorted (fun a b => (key a <= key b)%Q).

Definition descending_by {R : Type} (key : R -> Q) : list R -> Prop :=
  StronglySorted (fun a b => (key b <= key a)%Q).

Record SortKind : Type := {
  sorter : forall R : Type, (R -> Q) -> list R -> list R;
  sorter_perm : forall R (key : R -> Q) l, Permutation (sorter R key l) l;
  sorter_sorted : forall R (key : R -> Q) l, ascending_by key (sorter R key l)
}.

(** Rows with equal keys keep their relative order. *)
Definition keeps_ties {R : Type} (key : R -> Q) (l l' : list R) : Prop :=
  forall q : Q,
    filter (fun r => Qeq_bool (key r) q) l'
    = filter (fun r => Qeq_bool (key r) q) l.

Definition StableKind (K : SortKind) : Prop :=
  forall R (key : R -> Q) l, keeps_ties key l (sorter K R key l).

(** Insertion sort: an element is put in front of the first element it
    [goes_before]. *)
Section Insertion.
Context {R : Type} (goes_before : Q -> Q -> bool) (key : R -> Q).

Fixpoint insert (x : R) (l : list R) : list R :=
  match l with
  | [] => [x]
  | y :: l' =>
      if goes_before (key x) (key y) then x :: l else y :: insert x l'
  end.

Fixpoint insertion_sort (l : list R) : list R :=
  match l with
  | [] => []
  | x :: l' => insert x (insertion_sort l')
  end.
End Insertion.

(** In front of equal keys: ties keep their order. *)
Definition before_ties (a b : Q) : bool := Qle_bool a b.

(** ** Helper functions of the script *)

Section Helpers.
Variable K : SortKind.

(** [df.sort_values(by=..., ascending=...)].  For a descending sort
    pandas reverses the rows, sorts ascending and reverses the
    result. *)
Definition sort_values {R : Type} (by_ : R -> Q) (ascending : bool)
    (df : Frame R) : Frame R :=
  if ascending then sorter K _ (fun p => by_ (snd p)) df
  else rev (sorter K _ (fun p => by_ (snd p)) (rev df)).

(** [df.set_index(col)]: the values of the column become the labels. *)
Definition set_index {R : Type} (col : R -> Z) (df : Frame R) : Frame R :=
  map (fun p => (col (snd p), snd p)) df.

(** [series.max()]: NaN, here [None], on an empty column. *)
Definition series_max (xs : list Z) : option Z :=
  match xs with
  | [] => None
  | x :: xs' => Some (fold_left Z.max xs' x)
  end.

(** [value == scalar], where the scalar may be NaN: NaN equals
    nothing. *)
Definition eq_scalar (v : Z) (s : option Z) : bool :=
  match s with
  | Some m => v =? m
  | None => false
  end.

(** [data[data["year"] == year]] *)
Definition filter_year {R : Type} (year_of : R -> Z) (data : Frame R)
    (year : Z) : Frame R :=
  filter (fun p => year_of (snd p) =? year) data.

End Helpers.

(** [str(n)] of an integer. *)
Definition str (n : Z) : string := NilZero.string_of_int (Z.to_int n).

(** [series.values[0]] *)
Definition values_0 {A : Type} (values : list A) : result A :=
  match values with
  | v :: _ => Ok v
  | [] => Raise IndexError
  end.

(** [df.head(1)] *)
Definition head_1 {R : Type} (df : Frame R) : Frame R := firstn 1 df.

(** ** Chart descriptions (plotly express) *)

(** The values of a column in order of first appearance,
    [series.unique()]; also [OrderedDict.fromkeys]. *)
Fixpoint unique (l : list string) : list string :=
  match l with
  | [] => []
  | x :: l' => x :: filter (fun y => negb (String.eqb y x)) (unique l')
  end.

(** The order in which plotly express draws the groups of a [color]
    column: the values listed in [category_orders] first, then the other
    values of the column as they first appear. *)
Definition category_order (orders present : list string) : list string :=
  unique (orders ++ unique present).

(** One trace per value of the column that has rows, in that order. *)
Definition px_groups {R : Type} (color : R -> string) (orders : list string)
    (df : Frame R) : list (string * Frame R) :=
  flat_map
    (fun c =>
       match filter (fun p => String.eqb (color (snd p)) c) df with
       | [] => []
       | rows => [(c, rows)]
       end)
    (category_order orders (map (fun p => color (snd p)) df)).

(** Membership in a list of strings, as a boolean. *)
Definition mem (x : string) (l : list string) : bool :=
  existsb (String.eqb x) l.

(** Some row of the frame has the value [c] in the colour column. *)
Definition occurs {R : Type} (color : R -> string) (df : Frame R) (c : string)
    : bool :=
  existsb (fun p => String.eqb (color (snd p)) c) df.

Record GeoMarker : Type := {
  marker_lat : Q;
  marker_lon : Q;
  marker_hover_name : string;
  marker_text : Z
}.

Record GeoScatterSpec : Type := {
  geo_traces : list (string * list GeoMarker);
  geo_clickmode : string;
  geo_showlegend : bool;
  geo_marker_size : Z
}.

Record LinePoint : Type := {
  line_x : Z;
  line_y : Q;
  line_hover : string
}.

Record LineChartSpec : Type := {
  line_traces : list (string * list LinePoint);
  line_mode : string;
  line_xaxis_title : string;
  line_yaxis_title : string;
  line_legend_title : string;
  line_height : Z
}.

Record Bar : Type := {
  bar_x : Q;
  bar_y : string;
  bar_text : string;
  bar_hover : string
}.

Record Annotation : Type := {
  ann_x : Q;
  ann_y : string;
  ann_text : string;
  ann_showarrow : bool;
  ann_xanchor : string
}.

Record BarChartSpec : Type := {
  bar_traces : list (string * list Bar);
  bar_showlegend : bool;
  bar_xaxis_title : string;
  bar_yaxis_title : string;
  bar_height : Z;
  bar_texttemplate : string;
  bar_annotations : list Annotation
}.

Definition quot : string := String "034"%char "".
Definition newline : string := String "010"%char "".

(** The point [px.line] draws for a row of the frame. *)
Definition line_point (p : Z * Named) : LinePoint :=
  {| line_x := Driver.round (fst (snd p));
     line_y := Driver.points (fst (snd p));
     line_hover := snd (snd p) |}.

(** The bar [px.bar] draws for a row of the frame. *)
Definition bar_of (p : Z * Named) : Bar :=
  {| bar_x := Driver.points (fst (snd p));
     bar_y := Driver.code (fst (snd p));
     bar_text := snd (snd p);
     bar_hover := snd (snd p) |}.

(** The annotation the loop adds for a row without points. *)
Definition annotation_of (p : Z * Named) : Annotation :=
  {| ann_x := 0;
     ann_y := Driver.code (fst (snd p));
     ann_text := snd (snd p);
     ann_showarrow := false;
     ann_xanchor := "left" |}.

(** The running sum of a column: what a cumulative plot of the column
    would show. *)
Fixpoint running_sum (acc : Q) (l : list Q) : list Q :=
  match l with
  | [] => []
  | x :: l' => (acc + x)%Q :: running_sum (acc + x)%Q l'
  end.

(** ** Standings and display of driver frames

    The functions below read driver columns; [row] gives them for a
    frame with or without the added column "name". *)
Section DriverFrames.
Variable K : SortKind.
Context {R : Type} (row : R -> Driver.t).

(** Returns the driver standings for the season. *)
Definition get_season_rankings (drivers : Frame R) : Frame R :=
  set_index (fun r => Driver.position (row r))
    (sort_values K (fun r => Driver.points (row r)) false
       (filter
          (fun p =>
             eq_scalar (Driver.round (row (snd p)))
               (series_max (map (fun p => Driver.round (row (snd p))) drivers)))
          drivers)).

(** Returns the driver standings for a specific circuit. *)
Definition get_circuit_rankings (drivers : Frame R)
    (circuits : Frame Circuit.t) (selection : string) : result (Frame R) :=
  match
    values_0
      (map (fun p => Circuit.round (snd p))
         (filter (fun p => String.eqb (Circuit.name (snd p)) selection)
            circuits))
  with
  | Raise e => Raise e
  | Ok rnd_num =>
      Ok (set_index (fun r => Driver.position (row r))
            (sort_values K (fun r => Driver.points (row r)) false
               (filter (fun p => Driver.round (row (snd p)) =? rnd_num)
                  drivers)))
  end.

(** The rows [get_season_rankings] selects, in the order of the
    input. *)
Definition last_round_rows (drivers : Frame R) : Frame R :=
  filter
    (fun p =>
       eq_scalar (Driver.round (row (snd p)))
         (series_max (map (fun p => Driver.round (row (snd p))) drivers)))
    drivers.

(** The rankings of one round, as [get_circuit_rankings] builds them
    once it has the round number. *)
Definition round_rankings (drivers : Frame R) (rnd_num : Z) : Frame R :=
  set_index (fun r => Driver.position (row r))
    (sort_values K (fun r => Driver.points (row r)) false
       (filter (fun p => Driver.round (row (snd p)) =? rnd_num) drivers)).

(** The text [show_winner_text] hands to [st.markdown]. *)
Definition winner_text (rankings : Frame R) : result string :=
  let winner := head_1 rankings in
  match values_0 (map (fun p => Driver.forename (row (snd p))) winner) with
  | Raise e => Raise e
  | Ok forename =>
  match values_0 (map (fun p => Driver.surname (row (snd p))) winner) with
  | Raise e => Raise e
  | Ok surname =>
  let winner_name := (forename ++ " " ++ surname)%string in
  match values_0 (map (fun p => Driver.number (row (snd p))) winner) with
  | Raise e => Raise e
  | Ok number =>
  let winner_number := ("[" ++ str number ++ "]")%string in
  Ok (newline
      ++ "    <span style=" ++ quot ++ "font-size: 24px;;" ++ quot
      ++ ">Winner:</span>" ++ newline
      ++ "    <span style=" ++ quot ++ "font-size: 40px; color: red;" ++ quot
      ++ ">" ++ winner_name ++ "</span>" ++ newline
      ++ "    <span style=" ++ quot ++ "font-size: 40px; color: red;" ++ quot
      ++ ">" ++ winner_number ++ "</span>" ++ newline
      ++ "    ")%string
  end end end.

(** [show_driver_progression], the frame: what the two statements
    [drivers.sort_values(by=["round"], inplace=True)] and
    [drivers["name"] = drivers["forename"] + " " + drivers["surname"]]
    leave in the frame object they are applied to. *)
Definition progression_frame (drivers : Frame R) : Frame Named :=
  map
    (fun p =>
       (fst p,
        (row (snd p),
         (Driver.forename (row (snd p)) ++ " "
          ++ Driver.surname (row (snd p)))%string)))
    (sort_values K (fun r => inject_Z (Driver.round (row r))) true drivers).

(** [show_driver_progression], the figure: [px.line] over that frame
    with x="round", y="points", color="code", hover_data=["name"] and
    category_orders={"code": rankings}, then the trace and layout
    updates. *)
Definition progression_chart (drivers : Frame R) (rankings : list string)
    : LineChartSpec :=
  {| line_traces :=
       map
         (fun g =>
            (fst g,
             map
               (fun p =>
                  {| line_x := Driver.round (fst (snd p));
                     line_y := Driver.points (fst (snd p));
                     line_hover := snd (snd p) |})
               (snd g)))
         (px_groups (fun r : Named => Driver.code (fst r)) rankings
            (progression_frame drivers));
     line_mode := "lines+markers";
     line_xaxis_title := "Race Number";
     line_yaxis_title := "Driver Points";
     line_legend_title := "Driver";
     line_height := 700 |}.

(** [show_driver_points], the frame: what
    [rankings["name"] = rankings.index.astype(str) + ". "
       + rankings["forename"] + " " + rankings["surname"]]
    leaves in the frame object. *)
Definition points_frame (rankings : Frame R) : Frame Named :=
  map
    (fun p =>
       (fst p,
        (row (snd p),
         (str (fst p) ++ ". " ++ Driver.forename (row (snd p)) ++ " "
          ++ Driver.surname (row (snd p)))%string)))
    rankings.

(** [show_driver_points], the figure: [px.bar] over that frame with
    x="points", y="code", color="code", hover_data=["name"] and
    text="name", the layout and trace updates, and the loop that adds
    an annotation for each row with no points. *)
Definition points_chart (rankings : Frame R) : BarChartSpec :=
  {| bar_traces :=
       map
         (fun g =>
            (fst g,
             map
               (fun p =>
                  {| bar_x := Driver.points (fst (snd p));
                     bar_y := Driver.code (fst (snd p));
                     bar_text := snd (snd p);
                     bar_hover := snd (snd p) |})
               (snd g)))
         (px_groups (fun r : Named => Driver.code (fst r)) []
            (points_frame rankings));
     bar_showlegend := false;
     bar_xaxis_title := "Driver Points";
     bar_yaxis_title := "Driver";
     bar_height := 700;
     bar_texttemplate := "%{text}";
     bar_annotations :=
       flat_map
         (fun p =>
            if Qeq_bool (Driver.points (fst (snd p))) 0
            then [ {| ann_x := 0;
                      ann_y := Driver.code (fst (snd p));
                      ann_text := snd (snd p);
                      ann_showarrow := false;
                      ann_xanchor := "left" |} ]
            else [])
         (points_frame rankings) |}.
End DriverFrames.

(** ** Display of the circuits frame *)
Section CircuitFrames.
Variable K : SortKind.

(** [show_world_map], the figure: [px.scatter_geo] with lat="lat",
    lon="lng", hover_name="name", color="country" and text="round",
    then the layout and trace updates. *)
Definition world_map (circuits : Frame Circuit.t) : GeoScatterSpec :=
  {| geo_traces :=
       map
         (fun g =>
            (fst g,
             map
               (fun p =>
                  {| marker_lat := Circuit.lat (snd p);
                     marker_lon := Circuit.lng (snd p);
                     marker_hover_name := Circuit.name (snd p);
                     marker_text := Circuit.round (snd p) |})
               (snd g)))
         (px_groups Circuit.country [] circuits);
     geo_clickmode := "event+select";
     geo_showlegend := false;
     geo_marker_size := 12 |}.

(** [show_races], the table: the circuits sorted by round, indexed by
    round, columns name and country. *)
Definition races_table (circuits : Frame Circuit.t)
    : list (Z * (string * string)) :=
  map (fun p => (fst p, (Circuit.name (snd p), Circuit.country (snd p))))
    (set_index Circuit.round
       (sort_values K (fun c => inject_Z (Circuit.round c)) true circuits)).
End CircuitFrames.

(** ** The running script

    Python variables hold references to frame objects, and two of the
    display functions update the object they are given.  The script is
    therefore run over a heap of frame objects, together with the page
    built so far; a run ends normally or with an exception, and the
    heap and page it leaves are kept in both cases. *)

Definition loc : Type := nat.

Inductive container : Type := MainArea | Sidebar | Column (i : nat).

Inductive element : Type :=
| Image (path : string) (width : Z)
| Title (body : string)
| Text (body : string)
| Markdown (body : string) (unsafe_allow_html : bool)
| Selectbox (label : string) (options : list Z) (index : nat)
| Table (rows : list (Z * (string * string)))
| GeoChart (fig : GeoScatterSpec) (use_container_width : bool)
| LineChart (fig : LineChartSpec) (use_container_width : bool)
| BarChart (fig : BarChartSpec) (use_container_width : bool).

Record session : Type := {
  heap : list DataFrame;
  page : list (container * element)
}.

Definition run (A : Type) : Type := session -> result A * session.

Definition ret {A : Type} (a : A) : run A := fun s => (Ok a, s).

Definition raise {A : Type} (e : exn) : run A := fun s => (Raise e, s).

Definition bind {A B : Type} (m : run A) (f : A -> run B) : run B :=
  fun s =>
    match m s with
    | (Ok a, s') => f a s'
    | (Raise e, s') => (Raise e, s')
    end.

Declare Scope run_scope.
Delimit Scope run_scope with run.
Notation "x <- m ;; k" := (bind m (fun x => k))
  (at level 61, m at next level, right associativity) : run_scope.
Notation "m ;; k" := (bind m (fun _ => k))
  (at level 61, right associativity) : run_scope.

(** A new frame object. *)
Definition alloc (df : DataFrame) : run loc :=
  fun s => (Ok (List.length (heap s)),
            {| heap := (heap s ++ [df])%list; page := page s |}).

(** The object behind a reference. *)
Definition deref (l : loc) : run DataFrame :=
  fun s =>
    match nth_error (heap s) l with
    | Some df => (Ok df, s)
    | None => (Raise KeyError, s)
    end.

Fixpoint update {A : Type} (l : nat) (a : A) (h : list A) : list A :=
  match h, l with
  | [], _ => []
  | _ :: h', O => a :: h'
  | b :: h', S l' => b :: update l' a h'
  end.

(** An update in place of the object behind a reference. *)
Definition assign (l : loc) (df : DataFrame) : run unit :=
  fun s => (Ok tt, {| heap := update l df (heap s); page := page s |}).

(** A streamlit call that puts an element on the page. *)
Definition st (c : container) (e : element) : run unit :=
  fun s => (Ok tt, {| heap := heap s; page := (page s ++ [(c, e)])%list |}).

Local Open Scope run_scope.

Section Script.
Variable K : SortKind.

Definition START_YEAR : Z := 1950.
Definition END_YEAR : Z := 2023.

(** [range(a, b)] *)
Definition range (a b : Z) : list Z :=
  map (fun i => a + Z.of_nat i) (seq 0 (Z.to_nat (b - a))).

(** The options of the year selector,
    [list(reversed(range(START_YEAR, END_YEAR + 1)))]. *)
Definition year_options : list Z := rev (range START_YEAR (END_YEAR + 1)).

(** [st.sidebar.selectbox(label, options, index=...)]: the dropdown is
    put in the sidebar; the call returns the option the user has
    picked, and before any pick the option at [index]. *)
Definition selectbox (label : string) (options : list Z) (index : nat)
    (picked : option Z) : run Z :=
  st Sidebar (Selectbox label options index) ;;
  match picked with
  | Some y => ret y
  | None =>
      match nth_error options index with
      | Some y => ret y
      | None => raise IndexError
      end
  end.

Definition filter_year_ref (data : loc) (year : Z) : run loc :=
  df <- deref data ;;
  match df with
  | Circuits rows => alloc (Circuits (filter_year Circuit.year rows year))
  | Drivers rows => alloc (Drivers (filter_year Driver.year rows year))
  | DriversNamed rows =>
      alloc (DriversNamed
               (filter_year (fun r : Named => Driver.year (fst r)) rows year))
  end.

Definition get_season_rankings_ref (drivers : loc) : run loc :=
  df <- deref drivers ;;
  match df with
  | Circuits _ => raise KeyError
  | Drivers rows => alloc (Drivers (get_season_rankings K id rows))
  | DriversNamed rows => alloc (DriversNamed (get_season_rankings K fst rows))
  end.

(** Displays the winner of the season. *)
Definition show_winner_text (rankings : loc) : run unit :=
  df <- deref rankings ;;
  match
    match df with
    | Circuits _ => Raise KeyError
    | Drivers rows => winner_text id rows
    | DriversNamed rows => winner_text fst rows
    end
  with
  | Raise e => raise e
  | Ok text => st MainArea (Markdown text true)
  end.

(** Plots the Formula 1 races in a map. *)
Definition show_world_map (circuits : loc) : run unit :=
  df <- deref circuits ;;
  match df with
  | Circuits rows => st MainArea (GeoChart (world_map rows) true)
  | _ => raise KeyError
  end.

(** Plots the races that year in order. *)
Definition show_races (c : container) (circuits : loc) : run unit :=
  df <- deref circuits ;;
  match df with
  | Circuits rows => st c (Table (races_table K rows))
  | _ => raise KeyError
  end.

(** Plots the Formula 1 driver progression in that year. *)
Definition show_driver_progression (c : container) (drivers : loc)
    (rankings : list string) : run unit :=
  df <- deref drivers ;;
  match df with
  | Circuits _ => raise KeyError
  | Drivers rows =>
      assign drivers (DriversNamed (progression_frame K id rows)) ;;
      st c (LineChart (progression_chart K id rows rankings) true)
  | DriversNamed rows =>
      assign drivers (DriversNamed (progression_frame K fst rows)) ;;
      st c (LineChart (progression_chart K fst rows rankings) true)
  end.

(** Plots the driver points for the season. *)
Definition show_driver_points (c : container) (rankings : loc) : run unit :=
  df <- deref rankings ;;
  match df with
  | Circuits _ => raise KeyError
  | Drivers rows =>
      assign rankings (DriversNamed (points_frame id rows)) ;;
      st c (BarChart (points_chart id rows) true)
  | DriversNamed rows =>
      assign rankings (DriversNamed (points_frame fst rows)) ;;
      st c (BarChart (points_chart fst rows) true)
  end.

(** [rankings["code"].tolist()] *)
Definition code_tolist (rankings : loc) : run (list string) :=
  df <- deref rankings ;;
  match df with
  | Circuits _ => raise KeyError
  | Drivers rows => ret (map (fun p => Driver.code (snd p)) rows)
  | DriversNamed rows => ret (map (fun p => Driver.code (fst (snd p))) rows)
  end.

(** The script from the loading of the data to the last chart.
    [circuits_csv] and [drivers_csv] are the rows of the two files,
    [picked] the year the user has chosen in the selector, if any. *)
Definition script (circuits_csv : list Circuit.t)
    (drivers_csv : list Driver.t) (picked : option Z) : run unit :=
  circuits <- alloc (Circuits (read_csv circuits_csv)) ;;
  drivers <- alloc (Drivers (read_csv drivers_csv)) ;;
  selected_year <-
    selectbox "Select the year you want to explore" year_options 0 picked ;;
  filtered_circuits <- filter_year_ref circuits selected_year ;;
  filtered_drivers <- filter_year_ref drivers selected_year ;;
  rankings <- get_season_rankings_ref filtered_drivers ;;
  st MainArea (Image "img/f1_logo.png" 300) ;;
  st MainArea (Title ("Formula 1 Season " ++ str selected_year)) ;;
  st Sidebar (Text "Circuits in the season") ;;
  show_races Sidebar filtered_circuits ;;
  show_winner_text rankings ;;
  show_world_map filtered_circuits ;;
  st (Column 1)
    (Markdown
       ("<div style='text-align: center; font-size: 20px;'>"
        ++ "Driver Progression</div>")
       true) ;;
  codes <- code_tolist rankings ;;
  show_driver_progression (Column 1) filtered_drivers codes ;;
  st (Column 2)
    (Markdown
       ("<div style='text-align: center; font-size: 20px;'>"
        ++ "Final Driver Standings</div>")
       true) ;;
  show_driver_points (Column 2) rankings.

Definition start : session := {| heap := []; page := [] |}.
End Script.

(** * Properties *)

(** ** Insertion sort and the sort kind built on it *)

Section InsertionFacts.
Context {R : Type} (goes_before : Q -> Q -> bool) (key : R -> Q).
Hypothesis before_le : forall a b, goes_before a b = true -> (a <= b)%Q.
Hypothesis after_le : forall a b, goes_before a b = false -> (b <= a)%Q.

Lemma insert_perm (x : R) (l : list R) :
  Permutation (insert goes_before key x l) (x :: l).
Proof.
  induction l as [|y l IH]; simpl.
  - apply Permutation_refl.
  - destruct (goes_before (key x) (key y)).
    + apply Permutation_refl.
    + apply Permutation_trans with (y :: x :: l).
      * now apply perm_skip.
      * apply perm_swap.
Qed.

Lemma insertion_sort_perm (l : list R) :
  Permutation (insertion_sort goes_before key l) l.
Proof.
  induction l as [|x l IH]; simpl.
  - apply perm_nil.
  - eapply Permutation_trans; [apply insert_perm|].
    now apply perm_skip.
Qed.

Lemma insert_sorted (x : R) (l : list R) :
  ascending_by key l -> ascending_by key (insert goes_before key x l).
Proof.
  unfold ascending_by.
  induction 1 as [|y l Hs IH Hy]; simpl.
  - constructor; constructor.
  - destruct (goes_before (key x) (key y)) eqn:E.
    + constructor.
      * now constructor.
      * constructor.
        -- now apply before_le.
        -- eapply Forall_impl; [|exact Hy].
           intros b Hb. simpl in Hb.
           eapply Qle_trans; [apply before_le; exact E | exact Hb].
    + constructor.
      * exact IH.
      * eapply Permutation_Forall.
        -- apply Permutation_sym, insert_perm.
        -- constructor; [now apply after_le | exact Hy].
Qed.

Lemma insertion_sort_sorted (l : list R) :
  ascending_by key (insertion_sort goes_before key l).
Proof.
  induction l as [|x l IH]; simpl.
  - constructor.
  - now apply insert_sorted.
Qed.
End InsertionFacts.

Lemma Qle_bool_false (a b : Q) : Qle_bool a b = false -> (b <= a)%Q.
Proof.
  intros E. apply Qlt_le_weak, Qnot_le_lt.
  intros H. apply Qle_bool_iff in H. congruence.
Qed.

Lemma before_ties_le (a b : Q) : before_ties a b = true -> (a <= b)%Q.
Proof. unfold before_ties. apply Qle_bool_iff. Qed.

Lemma before_ties_ge (a b : Q) : before_ties a b = false -> (b <= a)%Q.
Proof. unfold before_ties. apply Qle_bool_false. Qed.

(** The kind "stable": insertion in front of equal keys. *)
Definition kind_stable : SortKind :=
  {| sorter := fun R key => insertion_sort before_ties key;
     sorter_perm := fun R key => insertion_sort_perm before_ties key;
     sorter_sorted :=
       fun R key =>
         insertion_sort_sorted before_ties key before_ties_le before_ties_ge |}.

Lemma insert_before_ties_filter {R : Type} (key : R -> Q) (q : Q) (x : R)
    (l : list R) :
  filter (fun r => Qeq_bool (key r) q) (insert before_ties key x l)
  = filter (fun r => Qeq_bool (key r) q) (x :: l).
Proof.
  induction l as [|y l IH]; [reflexivity|].
  cbn [insert]. destruct (before_ties (key x) (key y)) eqn:E; [reflexivity|].
  cbn [filter] in *. rewrite IH.
  destruct (Qeq_bool (key x) q) eqn:Ex, (Qeq_bool (key y) q) eqn:Ey;
    try reflexivity.
  exfalso. apply Qeq_bool_iff in Ex, Ey.
  unfold before_ties in E.
  assert (H : (key x <= key y)%Q) by (rewrite Ex, Ey; apply Qle_refl).
  apply Qle_bool_iff in H. congruence.
Qed.

Lemma kind_stable_is_stable : StableKind kind_stable.
Proof.
  intros R key l q. cbn [sorter kind_stable].
  induction l as [|x l IH]; [reflexivity|].
  cbn [insertion_sort]. rewrite insert_before_ties_filter.
  cbn [filter]. now rewrite IH.
Qed.

(** ** Facts about the frame operations *)

Lemma StronglySorted_snoc {A : Type} (rel : A -> A -> Prop) (l : list A)
    (x : A) :
  StronglySorted rel l -> Forall (fun a => rel a x) l ->
  StronglySorted rel (l ++ [x]).
Proof.
  induction 1 as [|a l Hs IH Ha]; intros Hx; simpl.
  - constructor; constructor.
  - inversion Hx; subst. constructor.
    + now apply IH.
    + apply Forall_app. split; [exact Ha | now constructor].
Qed.

Lemma StronglySorted_rev {A : Type} (rel : A -> A -> Prop) (l : list A) :
  StronglySorted rel l -> StronglySorted (fun a b => rel b a) (rev l).
Proof.
  induction 1 as [|a l Hs IH Ha]; simpl.
  - constructor.
  - apply StronglySorted_snoc; [exact IH|].
    apply Forall_rev. exact Ha.
Qed.

Lemma filter_rev_comm {A : Type} (f : A -> bool) (l : list A) :
  filter f (rev l) = rev (filter f l).
Proof.
  induction l as [|a l IH]; [reflexivity|].
  simpl. rewrite filter_app, IH. simpl.
  destruct (f a); simpl; [reflexivity | now rewrite app_nil_r].
Qed.

Lemma StronglySorted_map {A B : Type} (f : A -> B) (rel : B -> B -> Prop)
    (l : list A) :
  StronglySorted (fun a b => rel (f a) (f b)) l -> StronglySorted rel (map f l).
Proof.
  induction 1 as [|a l Hs IH Ha]; simpl; constructor.
  - exact IH.
  - apply Forall_map. exact Ha.
Qed.

Lemma filter_map_comm {A B : Type} (f : A -> B) (g : B -> bool) (l : list A) :
  filter g (map f l) = map f (filter (fun a => g (f a)) l).
Proof.
  induction l as [|a l IH]; [reflexivity|].
  simpl. destruct (g (f a)); simpl; now rewrite IH.
Qed.

Section FrameFacts.
Variable K : SortKind.
Context {R : Type}.

Lemma sorter_nil {A : Type} (key : A -> Q) : sorter K A key [] = [].
Proof. apply Permutation_nil, Permutation_sym, sorter_perm. Qed.

Lemma sort_values_nil (by_ : R -> Q) (ascending : bool) :
  sort_values K by_ ascending [] = [].
Proof.
  unfold sort_values. destruct ascending; simpl; unfold Frame;
    now rewrite sorter_nil.
Qed.

Lemma sort_values_perm (by_ : R -> Q) (ascending : bool) (df : Frame R) :
  Permutation (sort_values K by_ ascending df) df.
Proof.
  unfold sort_values. destruct ascending.
  - apply sorter_perm.
  - eapply Permutation_trans; [apply Permutation_sym, Permutation_rev|].
    eapply Permutation_trans; [apply sorter_perm|].
    apply Permutation_sym, Permutation_rev.
Qed.

Lemma sort_values_descending (by_ : R -> Q) (df : Frame R) :
  descending_by (fun p => by_ (snd p)) (sort_values K by_ false df).
Proof.
  unfold sort_values, descending_by.
  apply (StronglySorted_rev (fun a b => (by_ (snd a) <= by_ (snd b))%Q)).
  apply (sorter_sorted K).
Qed.

Lemma sort_values_ascending (by_ : R -> Q) (df : Frame R) :
  ascending_by (fun p => by_ (snd p)) (sort_values K by_ true df).
Proof. unfold sort_values. apply (sorter_sorted K). Qed.

Lemma sort_values_keeps_ties (by_ : R -> Q) (ascending : bool)
    (df : Frame R) :
  StableKind K ->
  keeps_ties (fun p => by_ (snd p)) df (sort_values K by_ ascending df).
Proof.
  intros HK q. unfold sort_values. destruct ascending.
  - apply HK.
  - rewrite filter_rev_comm, HK, filter_rev_comm. apply rev_involutive.
Qed.

Lemma set_index_rows (col : R -> Z) (df : Frame R) :
  map snd (set_index col df) = map snd df.
Proof.
  unfold set_index. rewrite map_map. reflexivity.
Qed.

Lemma set_index_keys (col : R -> Z) (df : Frame R) :
  Forall (fun p => fst p = col (snd p)) (set_index col df).
Proof.
  unfold set_index. apply Forall_map, Forall_forall. reflexivity.
Qed.
End FrameFacts.

Lemma fold_max_spec (l : list Z) (a : Z) :
  In (fold_left Z.max l a) (a :: l)
  /\ Forall (fun x => x <= fold_left Z.max l a) (a :: l).
Proof.
  revert a. induction l as [|b l IH]; intros a; simpl.
  - split; [now left | constructor; [lia | constructor]].
  - destruct (IH (Z.max a b)) as [Hin Hall]. split.
    + destruct Hin as [E | Hin]; [|now right; right].
      rewrite <- E. destruct (Z.max_spec a b) as [[_ ->] | [_ ->]]; auto.
    + inversion Hall as [|? ? Hm Hl]; subst.
      constructor; [lia | constructor; [lia | exact Hl]].
Qed.

(** On a column with a value, [max] is the largest value of the column. *)
Lemma series_max_spec (xs : list Z) :
  xs <> [] ->
  exists m, series_max xs = Some m /\ In m xs /\ Forall (fun x => x <= m) xs.
Proof.
  destruct xs as [|x xs]; [congruence|]. intros _.
  exists (fold_left Z.max xs x). split; [reflexivity|].
  apply fold_max_spec.
Qed.

Lemma descending_head {A : Type} (key : A -> Q) (w : A) (l : list A) :
  descending_by key (w :: l) -> Forall (fun a => (key a <= key w)%Q) (w :: l).
Proof.
  intros H. inversion H; subst. constructor; [apply Qle_refl | assumption].
Qed.

(** ** Season rankings *)

Section SeasonRankings.
Variable K : SortKind.
Context {R : Type} (row : R -> Driver.t).

Let round_of (p : Z * R) : Z := Driver.round (row (snd p)).
Let points_of (p : Z * R) : Q := Driver.points (row (snd p)).

Lemma set_index_descending (col : R -> Z) (df : Frame R) :
  descending_by points_of df -> descending_by points_of (set_index col df).
Proof.
  unfold descending_by, set_index. intros H.
  apply StronglySorted_map. exact H.
Qed.

Lemma season_rankings_unfold (drivers : Frame R) :
  get_season_rankings K row drivers
  = set_index (fun r => Driver.position (row r))
      (sort_values K (fun r => Driver.points (row r)) false
         (last_round_rows row drivers)).
Proof. reflexivity. Qed.

(** C3, as amended.  For a non-empty table of driver rows,
    [get_season_rankings] returns exactly the rows of the largest round
    [m] of the table, ordered by points descending, each keyed by the
    value of its position column.  The winner comes first: the first
    entry has the most points.  Its key is the position the data gives
    it, whatever that is; it is 1 in particular whenever the entry
    keyed 1 has more points than every other entry. *)
Theorem season_rankings_last_round (drivers : Frame R) :
  drivers <> [] ->
  exists (m : Z) (w : Z * R) (rest : Frame R),
    In m (map round_of drivers)
    /\ Forall (fun p => round_of p <= m) drivers
    /\ Permutation (map snd (get_season_rankings K row drivers))
         (map snd (filter (fun p => round_of p =? m) drivers))
    /\ descending_by (fun r => Driver.points (row r))
         (map snd (get_season_rankings K row drivers))
    /\ Forall (fun p => fst p = Driver.position (row (snd p)))
         (get_season_rankings K row drivers)
    /\ get_season_rankings K row drivers = w :: rest
    /\ Forall (fun p => (points_of p <= points_of w)%Q)
         (get_season_rankings K row drivers)
    /\ fst w = Driver.position (row (snd w))
    /\ (forall p1,
          In p1 (get_season_rankings K row drivers) -> fst p1 = 1 ->
          (forall q, In q (get_season_rankings K row drivers) ->
                     fst q <> 1 -> (points_of q < points_of p1)%Q) ->
          fst w = 1).
Proof.
  intros Hne.
  destruct (series_max_spec (map round_of drivers)) as (m & Hmax & Hin & Hle).
  { destruct drivers; [congruence | discriminate]. }
  rewrite season_rankings_unfold.
  assert (Hsel : last_round_rows row drivers
                 = filter (fun p => round_of p =? m) drivers).
  { unfold last_round_rows. fold round_of. unfold round_of at 2.
    change (map (fun p : Z * R => Driver.round (row (snd p))) drivers)
      with (map round_of drivers).
    rewrite Hmax. reflexivity. }
  rewrite Hsel.
  set (sel := filter (fun p => round_of p =? m) drivers).
  set (sorted := sort_values K (fun r => Driver.points (row r)) false sel).
  set (out := set_index (fun r => Driver.position (row r)) sorted).
  assert (Hdesc : descending_by points_of out).
  { apply set_index_descending.
    exact (sort_values_descending K (fun r => Driver.points (row r)) sel). }
  assert (Hsel_ne : sel <> []).
  { apply in_map_iff in Hin. destruct Hin as (p & Hp & Hpin).
    intros E. assert (Hps : In p sel).
    { apply filter_In. split; [exact Hpin | now apply Z.eqb_eq]. }
    rewrite E in Hps. exact Hps. }
  assert (Hout_ne : out <> []).
  { intros E. apply Hsel_ne.
    apply map_eq_nil in E.
    apply Permutation_nil, Permutation_sym.
    rewrite <- E. apply Permutation_sym, sort_values_perm. }
  destruct out as [|w rest] eqn:Eout; [congruence|].
  exists m, w, rest.
  assert (Hhead : Forall (fun p => (points_of p <= points_of w)%Q) (w :: rest)).
  { apply descending_head. exact Hdesc. }
  repeat split.
  - exact Hin.
  - apply Forall_forall. intros p Hp.
    rewrite Forall_forall in Hle. apply Hle.
    apply in_map_iff. now exists p.
  - rewrite <- Eout. subst out. rewrite set_index_rows.
    apply Permutation_map, sort_values_perm.
  - rewrite <- Eout. subst out. rewrite set_index_rows.
    apply StronglySorted_map.
    exact (sort_values_descending K (fun r => Driver.points (row r)) sel).
  - rewrite <- Eout. subst out.
    exact (set_index_keys (fun r => Driver.position (row r)) sorted).
  - exact Hhead.
  - assert (Hk : Forall (fun p => fst p = Driver.position (row (snd p)))
                   (w :: rest)).
    { rewrite <- Eout. subst out.
      exact (set_index_keys (fun r => Driver.position (row r)) sorted). }
    inversion Hk; assumption.
  - intros p1 Hp1 Hk1 Hlead.
    destruct (Z.eq_dec (fst w) 1) as [E | N]; [exact E | exfalso].
    assert (Hlt : (points_of w < points_of p1)%Q).
    { apply Hlead; [now left | exact N]. }
    rewrite Forall_forall in Hhead. specialize (Hhead p1 Hp1).
    apply (Qlt_not_le _ _ Hlt). exact Hhead.
Qed.

(** Under a stable sort kind the standings keep the rows with equal
    points in the order they have in the input.  The call names no
    kind, and whether the kind pandas then applies keeps that order is
    not decided here. *)
Lemma season_rankings_ties_stable_kind (drivers : Frame R) :
  StableKind K ->
  keeps_ties (fun r => Driver.points (row r))
    (map snd (last_round_rows row drivers))
    (map snd (get_season_rankings K row drivers)).
Proof.
  intros HK q. rewrite season_rankings_unfold, set_index_rows.
  rewrite !filter_map_comm. f_equal.
  apply (sort_values_keeps_ties K (fun r => Driver.points (row r)) false
           (last_round_rows row drivers) HK q).
Qed.

(** C10.  On the empty table the largest round is NaN, which no round
    equals, and [get_season_rankings] returns the empty frame; run on
    a reference to an empty frame it returns a new empty frame and
    raises nothing. *)
Theorem season_rankings_empty :
  series_max (map round_of []) = None
  /\ (forall v : Z, eq_scalar v None = false)
  /\ get_season_rankings K row [] = []
  /\ (forall (s : session) (l : loc),
        nth_error (heap s) l = Some (Drivers []) ->
        get_season_rankings_ref K l s
        = (Ok (List.length (heap s)),
           {| heap := (heap s ++ [Drivers []])%list; page := page s |})).
Proof.
  assert (E : forall (A : Type) (f : A -> Driver.t),
             get_season_rankings K f [] = []).
  { intros A f. unfold get_season_rankings. cbn [filter].
    rewrite sort_values_nil. reflexivity. }
  repeat split.
  - apply E.
  - intros s l Hl. unfold get_season_rankings_ref, bind, deref.
    rewrite Hl. rewrite E. reflexivity.
Qed.
End SeasonRankings.


(** The standings of an empty frame on the heap. *)
Lemma season_rankings_empty_witness :
  nth_error (heap {| heap := [Drivers []]; page := [] |}) 0 = Some (Drivers [])
  /\ get_season_rankings_ref kind_stable 0%nat
       {| heap := [Drivers []]; page := [] |}
     = (Ok 1%nat, {| heap := [Drivers []; Drivers []]; page := [] |}).
Proof.
  split; [reflexivity|].
  destruct (season_rankings_empty kind_stable (@id Driver.t))
    as (_ & _ & _ & H).
  apply (H {| heap := [Drivers []]; page := [] |} 0%nat). reflexivity.
Defined.

(** Two drivers level on points at the last round. *)
Definition level_on_points : Frame Driver.t :=
  read_csv
    [Driver.mk 2021 22 "AAA" "Ann" "Archer" 7 0 20;
     Driver.mk 2021 22 "BBB" "Bob" "Baker" 8 0 21].

(** C3, counterexample.  The driver with the most points is given
    position 2 by the data: the standings put that driver first, keyed
    2, so the winner is not at position 1. *)
Lemma season_rankings_winner_keyed_by_data :
  get_season_rankings kind_stable id
    (read_csv
       [Driver.mk 2021 22 "AAA" "Ann" "Archer" 7 10 2;
        Driver.mk 2021 22 "BBB" "Bob" "Baker" 8 5 1])
  = [(2, Driver.mk 2021 22 "AAA" "Ann" "Archer" 7 10 2);
     (1, Driver.mk 2021 22 "BBB" "Bob" "Baker" 8 5 1)].
Proof. reflexivity. Qed.

(** The standings of the two drivers, as an instance of the theorem. *)
Lemma season_rankings_last_round_witness :
  level_on_points <> []
  /\ exists m w rest,
       In m (map (fun p => Driver.round (snd p)) level_on_points)
       /\ get_season_rankings kind_stable id level_on_points = w :: rest.
Proof.
  assert (Hne : level_on_points <> []) by discriminate.
  split; [exact Hne|].
  destruct (season_rankings_last_round kind_stable id level_on_points Hne)
    as (m & w & rest & Hm & _ & _ & _ & _ & Hout & _).
  exists m, w, rest. split; [exact Hm | exact Hout].
Defined.

(** ** The winner banner *)

(** C1, counterexample.  On the empty rankings the banner fails with
    the indexing error of [values[0]], which is not [EmptyRankings]. *)
Lemma winner_text_empty_is_index_error :
  winner_text id ([] : Frame Driver.t) = Raise IndexError
  /\ winner_text id ([] : Frame Driver.t) <> Raise EmptyRankings.
Proof. split; [reflexivity | discriminate]. Qed.

Section WinnerBanner.
Context {R : Type} (row : R -> Driver.t).

Lemma winner_text_cons (w : Z * R) (rest : Frame R) :
  exists text, winner_text row (w :: rest) = Ok text.
Proof. unfold winner_text. simpl. eexists. reflexivity. Qed.

(** C1, as amended.  On rankings with no rows the banner fails with
    [IndexError], raised by [values[0]] on the empty column; run on a
    reference to such rankings, [show_winner_text] raises it and leaves
    heap and page as they were.  On rankings with a row it succeeds. *)
Theorem winner_text_empty_raises_index_error :
  winner_text row [] = Raise IndexError
  /\ (forall w rest, exists text, winner_text row (w :: rest) = Ok text)
  /\ (forall (s : session) (l : loc),
        nth_error (heap s) l = Some (Drivers []) ->
        show_winner_text l s = (Raise IndexError, s)).
Proof.
  split; [reflexivity|]. split; [apply winner_text_cons|].
  intros s l Hl. unfold show_winner_text, bind, deref. rewrite Hl.
  reflexivity.
Qed.
End WinnerBanner.

(** The banner over a heap whose only frame is an empty rankings. *)
Lemma winner_text_empty_raises_index_error_witness :
  nth_error (heap {| heap := [Drivers []]; page := [] |}) 0 = Some (Drivers [])
  /\ show_winner_text 0%nat {| heap := [Drivers []]; page := [] |}
     = (Raise IndexError, {| heap := [Drivers []]; page := [] |}).
Proof.
  split; [reflexivity|].
  destruct (winner_text_empty_raises_index_error (@id Driver.t))
    as (_ & _ & H).
  apply H. reflexivity.
Defined.

(** ** Circuit rankings *)

Section CircuitRankings.
Variable K : SortKind.
Context {R : Type} (row : R -> Driver.t).

Lemma circuit_rankings_no_match (drivers : Frame R)
    (circuits : Frame Circuit.t) (selection : string) :
  (forall c, In c circuits -> Circuit.name (snd c) <> selection) ->
  get_circuit_rankings K row drivers circuits selection = Raise IndexError.
Proof.
  intros Hno. unfold get_circuit_rankings.
  replace
    (filter (fun p => String.eqb (Circuit.name (snd p)) selection) circuits)
    with (@nil (Z * Circuit.t)); [reflexivity|].
  symmetry. induction circuits as [|c cs IH]; [reflexivity|].
  simpl. destruct (String.eqb_spec (Circuit.name (snd c)) selection) as [E|N].
  - exfalso. apply (Hno c); [now left | exact E].
  - apply IH. intros c' Hc'. apply Hno. now right.
Qed.

Lemma circuit_rankings_first_match (drivers : Frame R)
    (before after : Frame Circuit.t) (c : Z * Circuit.t) (selection : string) :
  (forall c', In c' before -> Circuit.name (snd c') <> selection) ->
  Circuit.name (snd c) = selection ->
  get_circuit_rankings K row drivers (before ++ c :: after)%list selection
  = Ok (round_rankings K row drivers (Circuit.round (snd c))).
Proof.
  intros Hno Hc. unfold get_circuit_rankings.
  induction before as [|b bs IH]; simpl.
  - rewrite Hc, String.eqb_refl. reflexivity.
  - destruct (String.eqb_spec (Circuit.name (snd b)) selection) as [E|N].
    + exfalso. apply (Hno b); [now left | exact E].
    + apply IH. intros c' Hc'. apply Hno. now right.
Qed.

Lemma round_rankings_spec (drivers : Frame R) (rnd_num : Z) :
  Permutation (map snd (round_rankings K row drivers rnd_num))
    (map snd (filter (fun p => Driver.round (row (snd p)) =? rnd_num) drivers))
  /\ descending_by (fun r => Driver.points (row r))
       (map snd (round_rankings K row drivers rnd_num))
  /\ Forall (fun p => fst p = Driver.position (row (snd p)))
       (round_rankings K row drivers rnd_num).
Proof.
  unfold round_rankings. repeat split.
  - rewrite set_index_rows. apply Permutation_map, sort_values_perm.
  - rewrite set_index_rows. apply StronglySorted_map.
    exact (sort_values_descending K (fun r => Driver.points (row r)) _).
  - exact (set_index_keys (fun r => Driver.position (row r)) _).
Qed.

(** C5, as amended.  [get_circuit_rankings] takes the round of the
    first circuit row named [selection] and returns the driver rows of
    that round, sorted by points descending and keyed by position; when
    no circuit row has that name it fails with [IndexError], raised by
    [values[0]] on the empty selection. *)
Theorem circuit_rankings_first_match_or_index_error (drivers : Frame R)
    (circuits : Frame Circuit.t) (selection : string) :
  (exists before c after,
      circuits = (before ++ c :: after)%list
      /\ Forall (fun c' => Circuit.name (snd c') <> selection) before
      /\ Circuit.name (snd c) = selection
      /\ get_circuit_rankings K row drivers circuits selection
         = Ok (round_rankings K row drivers (Circuit.round (snd c)))
      /\ Permutation
           (map snd (round_rankings K row drivers (Circuit.round (snd c))))
           (map snd
              (filter
                 (fun p => Driver.round (row (snd p)) =? Circuit.round (snd c))
                 drivers))
      /\ descending_by (fun r => Driver.points (row r))
           (map snd (round_rankings K row drivers (Circuit.round (snd c))))
      /\ Forall (fun p => fst p = Driver.position (row (snd p)))
           (round_rankings K row drivers (Circuit.round (snd c))))
  \/ (Forall (fun c' => Circuit.name (snd c') <> selection) circuits
      /\ get_circuit_rankings K row drivers circuits selection
         = Raise IndexError).
Proof.
  induction circuits as [|c cs IH].
  - right. split; [constructor | reflexivity].
  - destruct (String.eqb_spec (Circuit.name (snd c)) selection) as [E|N].
    + left. exists [], c, cs.
      destruct (round_rankings_spec drivers (Circuit.round (snd c)))
        as (Hp & Hd & Hk).
      repeat split; try assumption.
      * constructor.
      * apply (circuit_rankings_first_match drivers [] cs c selection);
          [intros c' [] | exact E].
    + destruct IH as [(before & c0 & after & -> & Hb & Hc0 & Hget & Hrest)
                     | (Hall & Hget)].
      * left. exists (c :: before), c0, after.
        split; [reflexivity|]. split; [now constructor|].
        split; [exact Hc0|]. split; [|exact Hrest].
        apply (circuit_rankings_first_match drivers (c :: before) after c0
                 selection); [|exact Hc0].
        intros c' [<- | Hc']; [exact N|].
        rewrite Forall_forall in Hb. now apply Hb.
      * right. split; [now constructor|].
        apply circuit_rankings_no_match.
        intros c' [<- | Hc']; [exact N|].
        rewrite Forall_forall in Hall. now apply Hall.
Qed.
End CircuitRankings.

(** C5, counterexample.  A name that no circuit row has makes
    [get_circuit_rankings] fail with [IndexError], not [NotFound]. *)
Lemma circuit_rankings_unknown_name_is_index_error :
  get_circuit_rankings kind_stable id
    (read_csv [Driver.mk 2021 10 "HAM" "Lewis" "Hamilton" 44 25 1])
    (read_csv
       [Circuit.mk 2021 10 "Silverstone" "UK" (52 # 1) (-1 # 1)])
    "Monza"
  = Raise IndexError
  /\ get_circuit_rankings kind_stable id
       (read_csv [Driver.mk 2021 10 "HAM" "Lewis" "Hamilton" 44 25 1])
       (read_csv
          [Circuit.mk 2021 10 "Silverstone" "UK" (52 # 1) (-1 # 1)])
       "Monza"
     <> Raise NotFound.
Proof. split; [reflexivity | discriminate]. Qed.

(** ** Grouping by a colour column *)

Lemma filter_twice {A : Type} (f g : A -> bool) (l : list A) :
  filter f (filter g l) = filter (fun a => g a && f a) l.
Proof.
  induction l as [|a l IH]; [reflexivity|].
  simpl. destruct (g a); simpl; [destruct (f a)|]; now rewrite IH.
Qed.

Lemma unique_In (x : string) (l : list string) : In x (unique l) <-> In x l.
Proof.
  induction l as [|a l IH]; [reflexivity|].
  simpl. rewrite filter_In, IH. split.
  - intros [E | [H _]]; auto.
  - intros [E | H]; [now left|].
    destruct (String.eqb_spec x a) as [E | N]; [left; now symmetry|].
    right. split; [exact H | reflexivity].
Qed.

Lemma unique_NoDup (l : list string) : NoDup (unique l).
Proof.
  induction l as [|a l IH]; simpl; constructor.
  - rewrite filter_In. intros [_ H]. now rewrite String.eqb_refl in H.
  - now apply NoDup_filter.
Qed.

Lemma unique_NoDup_id (l : list string) : NoDup l -> unique l = l.
Proof.
  induction 1 as [|a l Hn Hd IH]; [reflexivity|].
  simpl. rewrite IH. f_equal.
  apply forallb_filter_id, forallb_forall.
  intros y Hy. destruct (String.eqb_spec y a) as [E | N];
    [subst; contradiction | reflexivity].
Qed.

Lemma mem_In (x : string) (l : list string) : mem x l = true <-> In x l.
Proof.
  unfold mem. rewrite existsb_exists. split.
  - intros (y & Hy & E). apply String.eqb_eq in E. now subst.
  - intros H. exists x. split; [exact H | apply String.eqb_refl].
Qed.

Lemma unique_app (l1 l2 : list string) :
  unique (l1 ++ l2)
  = (unique l1 ++ filter (fun y => negb (mem y l1)) (unique l2))%list.
Proof.
  induction l1 as [|a l1 IH]; simpl.
  - symmetry. apply forallb_filter_id. apply forallb_forall. reflexivity.
  - f_equal. rewrite IH, filter_app, filter_twice. f_equal.
    apply filter_ext. intros y. unfold mem. simpl.
    destruct (String.eqb y a), (existsb (String.eqb y) l1); reflexivity.
Qed.

Section PxGroups.
Context {R : Type} (color : R -> string).

Lemma occurs_In (df : Frame R) (c : string) :
  occurs color df c = true <-> exists p, In p df /\ color (snd p) = c.
Proof.
  unfold occurs. rewrite existsb_exists. split.
  - intros (p & Hp & E). exists p. split; [exact Hp | now apply String.eqb_eq].
  - intros (p & Hp & E). exists p. split; [exact Hp | now apply String.eqb_eq].
Qed.

Lemma filter_or_occurs (df : Frame R) (c : string) :
  (filter (fun p => String.eqb (color (snd p)) c) df = []
   /\ occurs color df c = false)
  \/ (exists p rows,
        filter (fun p => String.eqb (color (snd p)) c) df = p :: rows
        /\ occurs color df c = true).
Proof.
  unfold occurs. induction df as [|p df IH]; simpl.
  - left. split; reflexivity.
  - destruct (String.eqb (color (snd p)) c); simpl.
    + right. eexists _, _. split; reflexivity.
    + exact IH.
Qed.

Lemma px_groups_names_in (order : list string) (df : Frame R) :
  map fst
    (flat_map
       (fun c =>
          match filter (fun p => String.eqb (color (snd p)) c) df with
          | [] => []
          | rows => [(c, rows)]
          end)
       order)
  = filter (occurs color df) order.
Proof.
  induction order as [|c order IH]; [reflexivity|].
  simpl. rewrite map_app, IH.
  destruct (filter_or_occurs df c) as [[-> ->] | (p & rows & -> & ->)];
    reflexivity.
Qed.

(** The names of the groups, in order. *)
Lemma px_groups_names (orders : list string) (df : Frame R) :
  map fst (px_groups color orders df)
  = (filter (occurs color df) (unique orders)
     ++ filter (fun c => negb (mem c orders))
          (unique (map (fun p => color (snd p)) df)))%list.
Proof.
  unfold px_groups. rewrite px_groups_names_in.
  unfold category_order.
  rewrite unique_app, (unique_NoDup_id (unique _)) by apply unique_NoDup.
  rewrite filter_app. f_equal.
  rewrite filter_twice. apply filter_ext_in.
  intros c Hc. apply (proj1 (unique_In _ _)) in Hc.
  apply in_map_iff in Hc. destruct Hc as (p & E & Hp).
  assert (Ho : occurs color df c = true).
  { apply occurs_In. now exists p. }
  rewrite Ho. apply andb_true_r.
Qed.

(** The rows of each group: the rows with that value, in frame order. *)
Lemma px_groups_rows (orders : list string) (df : Frame R) (c : string)
    (rows : Frame R) :
  In (c, rows) (px_groups color orders df) ->
  rows = filter (fun p => String.eqb (color (snd p)) c) df /\ rows <> [].
Proof.
  unfold px_groups. intros H. apply in_flat_map in H.
  destruct H as (c' & _ & H).
  destruct (filter (fun p => String.eqb (color (snd p)) c') df) eqn:E;
    [destruct H|].
  destruct H as [H | []]. inversion H; subst.
  split; [now rewrite E | discriminate].
Qed.

(** One group per value of the column. *)
Lemma px_groups_NoDup (orders : list string) (df : Frame R) :
  NoDup (map fst (px_groups color orders df)).
Proof.
  unfold px_groups. rewrite px_groups_names_in.
  apply NoDup_filter, unique_NoDup.
Qed.

Lemma px_groups_covers (orders : list string) (df : Frame R) (c : string) :
  In c (map fst (px_groups color orders df))
  <-> exists p, In p df /\ color (snd p) = c.
Proof.
  unfold px_groups. rewrite px_groups_names_in, filter_In, occurs_In.
  split; [now intros [_ H]|].
  intros (p & Hp & E). split; [|now exists p].
  unfold category_order. apply unique_In, in_or_app. right.
  apply unique_In, in_map_iff. now exists p.
Qed.
End PxGroups.

(** ** The driver progression chart *)

(** C6, counterexample.  For a driver with 25 points at round 1 and 43
    at round 2, the line goes through 25 and 43, the values of the
    points column, and not through their running sum 25 and 68. *)
Lemma progression_plots_points_column :
  map (fun t => (fst t, map line_y (snd t)))
    (line_traces
       (progression_chart kind_stable id
          (read_csv
             [Driver.mk 2021 1 "VER" "Max" "Verstappen" 33 25 1;
              Driver.mk 2021 2 "VER" "Max" "Verstappen" 33 43 1])
          ["VER"]))
  = [("VER", [25%Q; 43%Q])]
  /\ running_sum 0 [25%Q; 43%Q] = [(25 # 1)%Q; (68 # 1)%Q]
  /\ ~ Forall2 Qeq [25%Q; 43%Q] (running_sum 0 [25%Q; 43%Q]).
Proof.
  split; [reflexivity|]. split; [reflexivity|].
  intros H. inversion H as [|? ? ? ? _ H2]; subst.
  inversion H2 as [|? ? ? ? E _]; subst.
  vm_compute in E. discriminate.
Qed.

Section Progression.
Variable K : SortKind.
Context {R : Type} (row : R -> Driver.t).

Lemma progression_chart_traces (drivers : Frame R) (rankings : list string) :
  line_traces (progression_chart K row drivers rankings)
  = map (fun g => (fst g, map line_point (snd g)))
      (px_groups (fun r : Named => Driver.code (fst r)) rankings
         (progression_frame K row drivers)).
Proof. reflexivity. Qed.

(** C6, as amended.  [show_driver_progression] orders the rows by
    round and adds the name column; the chart has one line per driver
    code of the table; the line of a code goes through the rows of that
    code in round order, with x the round and y the value of the points
    column of the row, taken as it is; the legend lists first the codes
    of [rankings] that occur, in the order of [rankings], then the
    other codes as they first appear. *)
Theorem progression_chart_lines (drivers : Frame R) (rankings : list string) :
  let frame := progression_frame K row drivers in
  let chart := progression_chart K row drivers rankings in
  Permutation (map (fun p => (fst p, fst (snd p))) frame)
    (map (fun p => (fst p, row (snd p))) drivers)
  /\ ascending_by (fun p : Z * Named => inject_Z (Driver.round (fst (snd p))))
       frame
  /\ Forall
       (fun p : Z * Named =>
          snd (snd p)
          = (Driver.forename (fst (snd p)) ++ " "
             ++ Driver.surname (fst (snd p)))%string)
       frame
  /\ NoDup (map fst (line_traces chart))
  /\ (forall c,
        In c (map fst (line_traces chart))
        <-> exists p, In p drivers /\ Driver.code (row (snd p)) = c)
  /\ (forall c points,
        In (c, points) (line_traces chart) ->
        points
        = map line_point
            (filter (fun p => String.eqb (Driver.code (fst (snd p))) c) frame))
  /\ map fst (line_traces chart)
     = (filter (occurs (fun r : Named => Driver.code (fst r)) frame)
          (unique rankings)
        ++ filter (fun c => negb (mem c rankings))
             (unique (map (fun p => Driver.code (fst (snd p))) frame)))%list.
Proof.
  intros frame chart.
  set (sorted := sort_values K (fun r => inject_Z (Driver.round (row r))) true
                   drivers).
  assert (Hframe : frame
                   = map (fun p =>
                            (fst p,
                             (row (snd p),
                              (Driver.forename (row (snd p)) ++ " "
                               ++ Driver.surname (row (snd p)))%string)))
                       sorted) by reflexivity.
  assert (Hnames : map fst (line_traces chart)
                   = map fst
                       (px_groups (fun r : Named => Driver.code (fst r))
                          rankings frame)).
  { unfold chart. rewrite progression_chart_traces, map_map.
    apply map_ext. reflexivity. }
  split; [|split; [|split; [|split; [|split; [|split]]]]].
  - rewrite Hframe, map_map. cbn [fst snd].
    apply (Permutation_map (fun p => (fst p, row (snd p)))).
    apply sort_values_perm.
  - rewrite Hframe. unfold ascending_by. apply StronglySorted_map.
    cbn [fst snd].
    exact (sort_values_ascending K
             (fun r => inject_Z (Driver.round (row r))) drivers).
  - rewrite Hframe. apply Forall_map, Forall_forall. reflexivity.
  - rewrite Hnames. apply px_groups_NoDup.
  - intros c. rewrite Hnames, px_groups_covers. split.
    + intros (p & Hp & E). rewrite Hframe in Hp.
      apply in_map_iff in Hp. destruct Hp as (p0 & <- & Hp0).
      exists p0. split; [|exact E].
      eapply Permutation_in; [apply sort_values_perm | exact Hp0].
    + intros (p & Hp & E).
      exists (fst p,
              (row (snd p),
               (Driver.forename (row (snd p)) ++ " "
                ++ Driver.surname (row (snd p)))%string)).
      split; [|exact E].
      rewrite Hframe. apply in_map_iff. exists p. split; [reflexivity|].
      eapply Permutation_in;
        [apply Permutation_sym, sort_values_perm | exact Hp].
  - intros c points Hin. unfold chart in Hin.
    rewrite progression_chart_traces in Hin.
    apply in_map_iff in Hin. destruct Hin as ([c' rows] & E & Hg).
    inversion E; subst.
    apply px_groups_rows in Hg. destruct Hg as [-> _]. reflexivity.
  - rewrite Hnames.
    exact (px_groups_names (fun r : Named => Driver.code (fst r)) rankings
             frame).
Qed.
End Progression.

(** ** The driver points chart *)

(** C7, counterexample.  A driver without points gets the annotation
    and its bar still carries the same text as label. *)
Lemma points_chart_zero_row_keeps_label :
  bar_traces
    (points_chart id
       [(21, Driver.mk 2021 22 "MAZ" "Nikita" "Mazepin" 9 0 21)])
  = [("MAZ",
      [ {| bar_x := 0; bar_y := "MAZ"; bar_text := "21. Nikita Mazepin";
           bar_hover := "21. Nikita Mazepin" |} ])]
  /\ bar_annotations
       (points_chart id
          [(21, Driver.mk 2021 22 "MAZ" "Nikita" "Mazepin" 9 0 21)])
     = [ {| ann_x := 0; ann_y := "MAZ"; ann_text := "21. Nikita Mazepin";
            ann_showarrow := false; ann_xanchor := "left" |} ].
Proof. split; reflexivity. Qed.

Section PointsChart.
Context {R : Type} (row : R -> Driver.t).

Lemma points_chart_traces (rankings : Frame R) :
  bar_traces (points_chart row rankings)
  = map (fun g => (fst g, map bar_of (snd g)))
      (px_groups (fun r : Named => Driver.code (fst r)) []
         (points_frame row rankings)).
Proof. reflexivity. Qed.

Lemma points_chart_annotations (rankings : Frame R) :
  bar_annotations (points_chart row rankings)
  = map annotation_of
      (filter (fun p => Qeq_bool (Driver.points (fst (snd p))) 0)
         (points_frame row rankings)).
Proof.
  unfold points_chart. cbn [bar_annotations].
  generalize (points_frame row rankings). unfold Named.
  intros frame. induction frame as [|p l IH]; [reflexivity|].
  cbn [flat_map filter].
  destruct (Qeq_bool (Driver.points (fst (snd p))) 0); cbn [map app];
    rewrite IH; reflexivity.
Qed.

(** C7, as amended.  [show_driver_points] gives every row the name
    "{position}. {forename} {surname}", the position being the index
    label; the chart has one group of bars per driver code and in it
    one bar per row of that code, with x the points, y the code and the
    name as text; and every row with points == 0 has, besides its bar
    with that text, an annotation at x = 0 with the same text, the
    other rows having none. *)
Theorem points_chart_bars (rankings : Frame R) :
  let frame := points_frame row rankings in
  let chart := points_chart row rankings in
  frame
  = map
      (fun p =>
         (fst p,
          (row (snd p),
           (str (fst p) ++ ". " ++ Driver.forename (row (snd p)) ++ " "
            ++ Driver.surname (row (snd p)))%string)))
      rankings
  /\ NoDup (map fst (bar_traces chart))
  /\ (forall c,
        In c (map fst (bar_traces chart))
        <-> exists p, In p rankings /\ Driver.code (row (snd p)) = c)
  /\ (forall c bars,
        In (c, bars) (bar_traces chart) ->
        bars
        = map bar_of
            (filter (fun p => String.eqb (Driver.code (fst (snd p))) c) frame))
  /\ (forall p,
        In p frame ->
        In (bar_of p)
          (List.concat (map snd (bar_traces chart))))
  /\ bar_annotations chart
     = map annotation_of
         (filter (fun p => Qeq_bool (Driver.points (fst (snd p))) 0) frame).
Proof.
  intros frame chart.
  assert (Hnames : map fst (bar_traces chart)
                   = map fst
                       (px_groups (fun r : Named => Driver.code (fst r)) []
                          frame)).
  { unfold chart. rewrite points_chart_traces, map_map.
    apply map_ext. reflexivity. }
  assert (Hcover : forall c,
             In c (map fst (bar_traces chart))
             <-> exists p, In p frame /\ Driver.code (fst (snd p)) = c).
  { intros c. rewrite Hnames.
    exact (px_groups_covers (fun r : Named => Driver.code (fst r)) []
             frame c). }
  assert (Hrows : forall c bars,
             In (c, bars) (bar_traces chart) ->
             bars
             = map bar_of
                 (filter (fun p => String.eqb (Driver.code (fst (snd p))) c)
                    frame)).
  { intros c bars Hin. unfold chart in Hin.
    rewrite points_chart_traces in Hin.
    apply in_map_iff in Hin. destruct Hin as ([c' rows] & E & Hg).
    inversion E; subst.
    apply px_groups_rows in Hg. destruct Hg as [-> _]. reflexivity. }
  split; [reflexivity|]. split; [|split; [|split; [|split]]].
  - rewrite Hnames. apply px_groups_NoDup.
  - intros c. rewrite Hcover. split.
    + intros (p & Hp & E). apply in_map_iff in Hp.
      destruct Hp as (p0 & <- & Hp0). now exists p0.
    + intros (p & Hp & E).
      exists (fst p,
              (row (snd p),
               (str (fst p) ++ ". " ++ Driver.forename (row (snd p)) ++ " "
                ++ Driver.surname (row (snd p)))%string)).
      split; [|exact E].
      apply in_map_iff. now exists p.
  - exact Hrows.
  - intros p Hp.
    assert (Hc : In (Driver.code (fst (snd p))) (map fst (bar_traces chart))).
    { apply Hcover. now exists p. }
    apply in_map_iff in Hc. destruct Hc as ([c bars] & Ec & Hg).
    cbn [fst] in Ec. subst c.
    apply in_concat. exists bars. split.
    + apply in_map_iff. now exists (Driver.code (fst (snd p)), bars).
    + rewrite (Hrows _ _ Hg). apply in_map, filter_In.
      split; [exact Hp | apply String.eqb_refl].
  - apply points_chart_annotations.
Qed.
End PointsChart.

(** ** The options of the year selector *)

Lemma range_In (a b y : Z) : In y (range a b) <-> a <= y < b.
Proof.
  unfold range. rewrite in_map_iff. split.
  - intros (i & <- & Hi). apply in_seq in Hi. lia.
  - intros H. exists (Z.to_nat (y - a)). split; [lia|].
    apply in_seq. lia.
Qed.

(** ** A run of the script *)

Lemma enumerate_from_rows {R : Type} (l : list R) (i : Z) :
  map snd (enumerate_from i l) = l.
Proof.
  revert i. induction l as [|r l IH]; intros i; [reflexivity|].
  simpl. now rewrite IH.
Qed.

Lemma filter_year_no_rows {R : Type} (year_of : R -> Z) (data : Frame R)
    (year : Z) :
  (forall r, In r (map snd data) -> year_of r <> year) ->
  filter_year year_of data year = [].
Proof.
  intros H. unfold filter_year.
  induction data as [|p data IH]; [reflexivity|].
  simpl. destruct (Z.eqb_spec (year_of (snd p)) year) as [E | N].
  - exfalso. apply (H (snd p)); [now left | exact E].
  - apply IH. intros r Hr. apply H. now right.
Qed.

Lemma get_season_rankings_nil (K : SortKind) {R : Type} (row : R -> Driver.t) :
  get_season_rankings K row [] = [].
Proof.
  unfold get_season_rankings. cbn [filter].
  rewrite sort_values_nil. reflexivity.
Qed.

(** Before any pick the script runs as if 2023 had been picked. *)
Lemma script_default (K : SortKind) (circuits_csv : list Circuit.t)
    (drivers_csv : list Driver.t) :
  script K circuits_csv drivers_csv None
  = script K circuits_csv drivers_csv (Some 2023).
Proof. reflexivity. Qed.

Ltac run_script :=
  cbv [script bind alloc deref selectbox st ret raise filter_year_ref
       get_season_rankings_ref show_races show_winner_text show_world_map
       show_driver_progression show_driver_points code_tolist assign update
       heap page start nth_error app List.length fst snd].

(** C2, counterexample.  With data for 2021 only and the year 1950
    selected, the run ends with [IndexError]. *)
Lemma script_year_without_rows_raises :
  filter_year Driver.year
    (read_csv [Driver.mk 2021 22 "VER" "Max" "Verstappen" 33 (791 # 2) 1])
    1950
  = []
  /\ fst (script kind_stable
            [Circuit.mk 2021 22 "Yas Marina" "UAE" (24 # 1) (54 # 1)]
            [Driver.mk 2021 22 "VER" "Max" "Verstappen" 33 (791 # 2) 1]
            (Some 1950) start)
     = Raise IndexError.
Proof. split; reflexivity. Qed.

(** C2, as amended.  For a year without matching rows [filter_year]
    returns the empty frame, whichever the table.  The empty input is
    accepted downstream by the season rankings, which are empty, by
    the table of the races, by the world map and by the two charts:
    none of them raises.  The winner banner alone does not accept it:
    [show_winner_text] raises [IndexError] on the empty rankings, so a
    run of the script for a year without driver rows shows the
    selector, the logo, the title and the table of the circuits and
    ends at the banner with [IndexError]. *)
Theorem script_year_without_rows (K : SortKind)
    (circuits_csv : list Circuit.t) (drivers_csv : list Driver.t) (year : Z) :
  (forall d, In d drivers_csv -> Driver.year d <> year) ->
  (forall (R : Type) (year_of : R -> Z) (data : Frame R),
      (forall r, In r (map snd data) -> year_of r <> year) ->
      filter_year year_of data year = [])
  /\ filter_year Driver.year (read_csv drivers_csv) year = []
  /\ get_season_rankings K id ([] : Frame Driver.t) = []
  /\ (forall (s : session) (l : loc),
        nth_error (heap s) l = Some (Drivers []) ->
        fst (get_season_rankings_ref K l s) = Ok (List.length (heap s))
        /\ (forall c codes,
              fst (show_driver_progression K c l codes s) = Ok tt)
        /\ (forall c, fst (show_driver_points c l s) = Ok tt)
        /\ fst (show_winner_text l s) = Raise IndexError)
  /\ (forall (s : session) (l : loc),
        nth_error (heap s) l = Some (Circuits []) ->
        (forall c, fst (show_races K c l s) = Ok tt)
        /\ fst (show_world_map l s) = Ok tt)
  /\ script K circuits_csv drivers_csv (Some year) start
     = (Raise IndexError,
        {| heap :=
             [Circuits (read_csv circuits_csv);
              Drivers (read_csv drivers_csv);
              Circuits (filter_year Circuit.year (read_csv circuits_csv) year);
              Drivers [];
              Drivers []];
           page :=
             [(Sidebar,
               Selectbox "Select the year you want to explore" year_options 0);
              (MainArea, Image "img/f1_logo.png" 300);
              (MainArea, Title ("Formula 1 Season " ++ str year));
              (Sidebar, Text "Circuits in the season");
              (Sidebar,
               Table
                 (races_table K
                    (filter_year Circuit.year (read_csv circuits_csv) year)))]
        |}).
Proof.
  intros Hno.
  assert (Hf : filter_year Driver.year (read_csv drivers_csv) year = []).
  { apply filter_year_no_rows. unfold read_csv.
    rewrite enumerate_from_rows. exact Hno. }
  split; [intros R year_of data; apply filter_year_no_rows|].
  split; [exact Hf|]. split; [apply get_season_rankings_nil|].
  split; [|split].
  - intros s l Hl. repeat split.
    + unfold get_season_rankings_ref, bind, deref. rewrite Hl. reflexivity.
    + intros c codes. unfold show_driver_progression, bind, deref.
      rewrite Hl. reflexivity.
    + intros c. unfold show_driver_points, bind, deref.
      rewrite Hl. reflexivity.
    + unfold show_winner_text, bind, deref. rewrite Hl. reflexivity.
  - intros s l Hl. split.
    + intros c. unfold show_races, bind, deref. rewrite Hl. reflexivity.
    + unfold show_world_map, bind, deref. rewrite Hl. reflexivity.
  - run_script. rewrite Hf, get_season_rankings_nil. reflexivity.
Qed.

(** The run for 1950 over data of 2021, as an instance of the theorem. *)
Lemma script_year_without_rows_witness :
  (forall d,
      In d [Driver.mk 2021 22 "VER" "Max" "Verstappen" 33 (791 # 2) 1] ->
      Driver.year d <> 1950)
  /\ fst (script kind_stable []
            [Driver.mk 2021 22 "VER" "Max" "Verstappen" 33 (791 # 2) 1]
            (Some 1950) start)
     = Raise IndexError.
Proof.
  assert (H : forall d,
             In d [Driver.mk 2021 22 "VER" "Max" "Verstappen" 33 (791 # 2) 1] ->
             Driver.year d <> 1950).
  { intros d [<- | []]. simpl. lia. }
  split; [exact H|].
  destruct (script_year_without_rows kind_stable []
              [Driver.mk 2021 22 "VER" "Max" "Verstappen" 33 (791 # 2) 1]
              1950 H) as (_ & _ & _ & _ & _ & E).
  rewrite E. reflexivity.
Defined.

(** ** What the chart builders do to the tables *)

(** C8, counterexample.  [show_driver_progression] leaves the table it
    is given sorted by round and with a name column, and
    [show_driver_points] leaves its table with a name column. *)
Lemma chart_builders_update_their_table :
  heap
    (snd
       (show_driver_progression kind_stable (Column 1) 0%nat ["VER"]
          {| heap :=
               [Drivers
                  [(0, Driver.mk 2021 2 "VER" "Max" "Verstappen" 33 43 1);
                   (1, Driver.mk 2021 1 "VER" "Max" "Verstappen" 33 25 1)]];
             page := [] |}))
  = [DriversNamed
       [(1, (Driver.mk 2021 1 "VER" "Max" "Verstappen" 33 25 1,
             "Max Verstappen"));
        (0, (Driver.mk 2021 2 "VER" "Max" "Verstappen" 33 43 1,
             "Max Verstappen"))]]
  /\ heap
       (snd
          (show_driver_points (Column 2) 0%nat
             {| heap :=
                  [Drivers
                     [(1, Driver.mk 2021 2 "VER" "Max" "Verstappen" 33 43 1)]];
                page := [] |}))
     = [DriversNamed
          [(1, (Driver.mk 2021 2 "VER" "Max" "Verstappen" 33 43 1,
                "1. Max Verstappen"))]].
Proof. split; reflexivity. Qed.

(** C8, as amended.  [show_world_map] leaves every table as it is.
    [show_driver_progression] and [show_driver_points] update the table
    they are given, and no other: the first leaves it sorted by round
    with the name column added, the second with the name column added.
    The two loaded tables are not among the tables updated: at the end
    of every run of the script, normal or not, they are as loaded. *)
Theorem chart_builders_effects (K : SortKind) :
  (forall (l : loc) (s : session), heap (snd (show_world_map l s)) = heap s)
  /\ (forall (c : container) (l : loc) (rankings : list string)
        (rows : Frame Driver.t) (s : session),
        nth_error (heap s) l = Some (Drivers rows) ->
        heap (snd (show_driver_progression K c l rankings s))
        = update l (DriversNamed (progression_frame K id rows)) (heap s))
  /\ (forall (c : container) (l : loc) (rows : Frame Driver.t) (s : session),
        nth_error (heap s) l = Some (Drivers rows) ->
        heap (snd (show_driver_points c l s))
        = update l (DriversNamed (points_frame id rows)) (heap s))
  /\ (forall (circuits_csv : list Circuit.t) (drivers_csv : list Driver.t)
        (picked : option Z),
        nth_error
          (heap (snd (script K circuits_csv drivers_csv picked start))) 0%nat
        = Some (Circuits (read_csv circuits_csv))
        /\ nth_error
             (heap (snd (script K circuits_csv drivers_csv picked start))) 1%nat
           = Some (Drivers (read_csv drivers_csv))).
Proof.
  split; [|split; [|split]].
  - intros l s. unfold show_world_map, bind, deref.
    destruct (nth_error (heap s) l) as [[rows | rows | rows]|]; reflexivity.
  - intros c l rankings rows s Hl.
    unfold show_driver_progression, bind, deref. rewrite Hl. reflexivity.
  - intros c l rows s Hl.
    unfold show_driver_points, bind, deref. rewrite Hl. reflexivity.
  - intros circuits_csv drivers_csv picked.
    destruct picked as [year|]; [|rewrite script_default];
      run_script;
      match goal with
      | |- context [winner_text id ?r] => destruct (winner_text id r)
      end;
      split; reflexivity.
Qed.

(** The points chart over a heap whose only frame is the standings of
    one driver. *)
Lemma chart_builders_effects_witness :
  nth_error
    (heap
       {| heap :=
            [Drivers [(1, Driver.mk 2021 22 "VER" "Max" "Verstappen" 33 43 1)]];
          page := [] |})
    0
  = Some (Drivers [(1, Driver.mk 2021 22 "VER" "Max" "Verstappen" 33 43 1)])
  /\ heap
       (snd
          (show_driver_points (Column 2) 0%nat
             {| heap :=
                  [Drivers
                     [(1, Driver.mk 2021 22 "VER" "Max" "Verstappen" 33 43 1)]];
                page := [] |}))
     = [DriversNamed
          [(1, (Driver.mk 2021 22 "VER" "Max" "Verstappen" 33 43 1,
                "1. Max Verstappen"))]].
Proof.
  split; [reflexivity|].
  destruct (chart_builders_effects kind_stable) as (_ & _ & H & _).
  rewrite (H (Column 2) 0%nat
             [(1, Driver.mk 2021 22 "VER" "Max" "Verstappen" 33 43 1)]);
    reflexivity.
Defined.

(** ** The year selector on the page *)

(** C9.  The selector offers exactly the years 1950 to 2023, from the
    most recent down, and before any pick it returns 2023: the options
    are that list, 74 years in strictly descending order starting at
    2023; the call puts in the sidebar a dropdown with these options
    and index 0, and returns the year picked or, before any pick, 2023;
    and in every run of the script that dropdown is the first element
    of the page. *)
Theorem year_selector_options :
  (forall y : Z, In y year_options <-> 1950 <= y <= 2023)
  /\ StronglySorted Z.gt year_options
  /\ List.length year_options = 74%nat
  /\ hd_error year_options = Some 2023
  /\ (forall (label : string) (picked : option Z) (s : session),
        page (snd (selectbox label year_options 0 picked s))
        = (page s ++ [(Sidebar, Selectbox label year_options 0)])%list)
  /\ (forall (label : string) (s : session),
        fst (selectbox label year_options 0 None s) = Ok 2023)
  /\ (forall (label : string) (y : Z) (s : session),
        fst (selectbox label year_options 0 (Some y) s) = Ok y)
  /\ (forall (K : SortKind) (circuits_csv : list Circuit.t)
        (drivers_csv : list Driver.t) (picked : option Z),
        hd_error
          (page (snd (script K circuits_csv drivers_csv picked start)))
        = Some
            (Sidebar,
             Selectbox "Select the year you want to explore" year_options 0)).
Proof.
  split; [|split; [|split; [|split; [|split; [|split; [|split]]]]]].
  - intros y. unfold year_options, START_YEAR, END_YEAR.
    rewrite <- in_rev, range_In. lia.
  - vm_compute.
    repeat
      (constructor; [|repeat (constructor; [reflexivity|]); constructor]).
    constructor.
  - reflexivity.
  - reflexivity.
  - intros label picked s. destruct picked; reflexivity.
  - intros label s. reflexivity.
  - intros label y s. reflexivity.
  - intros K circuits_csv drivers_csv picked.
    destruct picked as [year|]; [|rewrite script_default];
      run_script;
      match goal with
      | |- context [winner_text id ?r] => destruct (winner_text id r)
      end;
      reflexivity.
Qed.

(** * Further properties of the script *)

(** ** The year filter *)

Lemma enumerate_from_filter {R : Type} (f : R -> bool) (l : list R) (i : Z) :
  map snd (filter (fun p => f (snd p)) (enumerate_from i l)) = filter f l.
Proof.
  revert i. induction l as [|r l IH]; intros i; [reflexivity|].
  simpl. destruct (f r); simpl; now rewrite IH.
Qed.

Lemma enumerate_from_labels {R : Type} (l : list R) (i : Z) :
  Forall
    (fun p => i <= fst p /\ nth_error l (Z.to_nat (fst p - i)) = Some (snd p))
    (enumerate_from i l).
Proof.
  revert i. induction l as [|r l IH]; intros i; simpl; constructor.
  - simpl. split; [lia|]. now rewrite Z.sub_diag.
  - eapply Forall_impl; [|apply (IH (i + 1))].
    intros [j r'] [Hj Hn]. simpl in *. split; [lia|].
    replace (Z.to_nat (j - i)) with (S (Z.to_nat (j - (i + 1)))) by lia.
    exact Hn.
Qed.

Lemma enumerate_from_increasing {R : Type} (l : list R) (i : Z) :
  StronglySorted Z.lt (map fst (enumerate_from i l)).
Proof.
  revert i. induction l as [|r l IH]; intros i; simpl; constructor.
  - apply IH.
  - apply Forall_map.
    eapply Forall_impl; [|apply (enumerate_from_labels l (i + 1))].
    intros [j r'] [Hj _]. simpl in *. lia.
Qed.

Lemma StronglySorted_weaken {A : Type} (rel rel' : A -> A -> Prop)
    (l : list A) :
  (forall a b, rel a b -> rel' a b) ->
  StronglySorted rel l -> StronglySorted rel' l.
Proof.
  intros Himp. induction 1 as [|a l Hs IH Ha]; constructor; [exact IH|].
  eapply Forall_impl; [|exact Ha]. intros b. apply Himp.
Qed.

(** X1.  On a loaded table [filter_year] returns the rows of the year
    and no others, in the order of the file, and each keeps as label
    its row number in the file (the labels are not renumbered). *)
Theorem filter_year_loaded_table {R : Type} (year_of : R -> Z)
    (rows : list R) (year : Z) :
  map snd (filter_year year_of (read_csv rows) year)
  = filter (fun r => year_of r =? year) rows
  /\ Forall
       (fun p =>
          0 <= fst p /\ nth_error rows (Z.to_nat (fst p)) = Some (snd p))
       (filter_year year_of (read_csv rows) year)
  /\ StronglySorted Z.lt (map fst (filter_year year_of (read_csv rows) year)).
Proof.
  unfold filter_year, read_csv. split; [|split].
  - apply (enumerate_from_filter (fun r => year_of r =? year)).
  - apply Forall_forall. intros p Hp. apply filter_In in Hp.
    destruct Hp as [Hp _].
    pose proof (enumerate_from_labels rows 0) as H.
    rewrite Forall_forall in H. specialize (H p Hp).
    now rewrite Z.sub_0_r in H.
  - generalize (enumerate_from_increasing rows 0).
    generalize (enumerate_from 0 rows). intros df Hdf.
    induction df as [|p df IH]; [constructor|].
    simpl in *. inversion Hdf as [|? ? Hs Ha]; subst.
    destruct (year_of (snd p) =? year); simpl; [|now apply IH].
    constructor; [now apply IH|].
    apply Forall_forall. intros j Hj. apply in_map_iff in Hj.
    destruct Hj as (q & <- & Hq). apply filter_In in Hq.
    rewrite Forall_forall in Ha. apply Ha. apply in_map. apply Hq.
Qed.

(** X2.  Filtering a filtered table again by the same year changes
    nothing, and by another year leaves no row. *)
Theorem filter_year_twice {R : Type} (year_of : R -> Z) (data : Frame R)
    (year year' : Z) :
  filter_year year_of (filter_year year_of data year) year'
  = if year =? year' then filter_year year_of data year else [].
Proof.
  unfold filter_year. rewrite filter_twice.
  destruct (Z.eqb_spec year year') as [<- | N].
  - apply filter_ext. intros p. apply andb_diag.
  - induction data as [|p data IH]; [reflexivity|].
    simpl. rewrite IH.
    destruct (Z.eqb_spec (year_of (snd p)) year) as [E | _]; [|reflexivity].
    destruct (Z.eqb_spec (year_of (snd p)) year') as [E' | _];
      [congruence | reflexivity].
Qed.

(** ** The table of the races *)

(** X3.  The table [show_races] shows has one line per circuit row,
    with the round as key and the name and country as columns, in
    ascending order of round. *)
Theorem races_table_by_round (K : SortKind) (circuits : Frame Circuit.t) :
  Permutation (races_table K circuits)
    (map
       (fun p =>
          (Circuit.round (snd p),
           (Circuit.name (snd p), Circuit.country (snd p))))
       circuits)
  /\ StronglySorted Z.le (map fst (races_table K circuits)).
Proof.
  unfold races_table, set_index. rewrite !map_map. cbn [fst snd]. split.
  - apply (Permutation_map
             (fun p => (Circuit.round (snd p),
                        (Circuit.name (snd p), Circuit.country (snd p))))).
    apply sort_values_perm.
  - apply StronglySorted_map.
    pose proof (sort_values_ascending K
                  (fun c => inject_Z (Circuit.round c)) circuits) as H.
    unfold ascending_by in H.
    eapply StronglySorted_weaken; [|exact H].
    intros a b Hab. simpl in Hab. now rewrite <- Zle_Qle in Hab.
Qed.

(** ** The world map *)

(** The marker [px.scatter_geo] draws for a circuit row. *)
Definition marker_of (p : Z * Circuit.t) : GeoMarker :=
  {| marker_lat := Circuit.lat (snd p);
     marker_lon := Circuit.lng (snd p);
     marker_hover_name := Circuit.name (snd p);
     marker_text := Circuit.round (snd p) |}.

(** X4.  The world map has one group of markers per country of the
    table, the countries in order of first appearance, and in the group
    of a country one marker per circuit row of that country, at the
    row's latitude and longitude, with the circuit name on hover and
    the round as text. *)
Theorem world_map_markers (circuits : Frame Circuit.t) :
  map fst (geo_traces (world_map circuits))
  = unique (map (fun p => Circuit.country (snd p)) circuits)
  /\ (forall country markers,
        In (country, markers) (geo_traces (world_map circuits)) ->
        markers
        = map marker_of
            (filter
               (fun p => String.eqb (Circuit.country (snd p)) country)
               circuits))
  /\ (forall p,
        In p circuits ->
        In (marker_of p)
          (List.concat (map snd (geo_traces (world_map circuits))))).
Proof.
  assert (Htr : geo_traces (world_map circuits)
                = map (fun g => (fst g, map marker_of (snd g)))
                    (px_groups Circuit.country [] circuits)) by reflexivity.
  assert (Hnames : map fst (geo_traces (world_map circuits))
                   = unique (map (fun p => Circuit.country (snd p)) circuits)).
  { rewrite Htr, map_map. cbn [fst].
    change (map (fun x => fst x) (px_groups Circuit.country [] circuits))
      with (map fst (px_groups Circuit.country [] circuits)).
    rewrite px_groups_names. cbn [unique filter app].
    apply forallb_filter_id, forallb_forall. reflexivity. }
  assert (Hrows : forall country markers,
             In (country, markers) (geo_traces (world_map circuits)) ->
             markers
             = map marker_of
                 (filter
                    (fun p => String.eqb (Circuit.country (snd p)) country)
                    circuits)).
  { intros country markers Hin. rewrite Htr in Hin.
    apply in_map_iff in Hin. destruct Hin as ([c rows] & E & Hg).
    inversion E; subst.
    apply px_groups_rows in Hg. destruct Hg as [-> _]. reflexivity. }
  split; [exact Hnames|]. split; [exact Hrows|].
  intros p Hp.
  assert (Hc : In (Circuit.country (snd p))
                 (map fst (geo_traces (world_map circuits)))).
  { rewrite Hnames. apply unique_In, in_map_iff. now exists p. }
  apply in_map_iff in Hc. destruct Hc as ([c markers] & Ec & Hg).
  cbn [fst] in Ec. subst c.
  apply in_concat. exists markers. split.
  - apply in_map_iff. now exists (Circuit.country (snd p), markers).
  - rewrite (Hrows _ _ Hg). apply in_map, filter_In.
    split; [exact Hp | apply String.eqb_refl].
Qed.

(** ** Standings, banner and circuit rankings together *)

Section StandingsTogether.
Variable K : SortKind.
Context {R : Type} (row : R -> Driver.t).

(** The first entry of the standings is a row of the last round with
    the most points of that round. *)
Lemma season_rankings_head (drivers : Frame R) :
  drivers <> [] ->
  exists (w : Z * R) (rest : Frame R),
    get_season_rankings K row drivers = w :: rest
    /\ In (snd w) (map snd (last_round_rows row drivers))
    /\ Forall
         (fun p =>
            (Driver.points (row (snd p)) <= Driver.points (row (snd w)))%Q)
         (last_round_rows row drivers).
Proof.
  intros Hne.
  destruct (series_max_spec (map (fun p => Driver.round (row (snd p))) drivers))
    as (m & Hmax & Hin & _).
  { destruct drivers; [congruence | discriminate]. }
  assert (Hsel_ne : last_round_rows row drivers <> []).
  { apply in_map_iff in Hin. destruct Hin as (p & Hp & Hpin).
    intros E. assert (Hps : In p (last_round_rows row drivers)).
    { unfold last_round_rows. apply filter_In. split; [exact Hpin|].
      rewrite Hmax. simpl. now apply Z.eqb_eq. }
    rewrite E in Hps. exact Hps. }
  rewrite season_rankings_unfold.
  set (sel := last_round_rows row drivers) in *.
  set (sorted := sort_values K (fun r => Driver.points (row r)) false sel).
  assert (Hperm : Permutation sorted sel) by apply sort_values_perm.
  assert (Hdesc : descending_by
                    (fun p : Z * R => Driver.points (row (snd p)))
                    (set_index (fun r => Driver.position (row r)) sorted)).
  { apply set_index_descending.
    exact (sort_values_descending K (fun r => Driver.points (row r)) sel). }
  destruct sorted as [|v sorted'] eqn:Es.
  { exfalso. apply Hsel_ne. now apply Permutation_nil. }
  cbn [set_index map] in *.
  eexists _, _. split; [reflexivity|]. cbn [snd]. split.
  - apply in_map. eapply Permutation_in; [exact Hperm | now left].
  - apply descending_head in Hdesc. cbn [snd] in Hdesc.
    apply Forall_forall. intros p Hp.
    assert (Hp' : In p (v :: sorted')).
    { eapply Permutation_in; [apply Permutation_sym, Hperm | exact Hp]. }
    inversion Hdesc as [|? ? Hv Hrest]; subst.
    destruct Hp' as [<- | Hp']; [apply Qle_refl|].
    rewrite Forall_forall in Hrest.
    apply (Hrest (Driver.position (row (snd p)), snd p)).
    apply in_map_iff. now exists p.
Qed.

(** [show_winner_text] reads the first row only. *)
Lemma winner_text_first_row (w : Z * R) (rest : Frame R) :
  winner_text row (w :: rest) = winner_text id [(fst w, row (snd w))].
Proof. reflexivity. Qed.


(** X6.  When the circuit selected is the one of the last round of the
    table, the circuit rankings are the season rankings. *)
Theorem circuit_rankings_of_last_round (drivers : Frame R)
    (before after : Frame Circuit.t) (c : Z * Circuit.t) (selection : string) :
  Forall (fun c' => Circuit.name (snd c') <> selection) before ->
  Circuit.name (snd c) = selection ->
  series_max (map (fun p => Driver.round (row (snd p))) drivers)
  = Some (Circuit.round (snd c)) ->
  get_circuit_rankings K row drivers (before ++ c :: after)%list selection
  = Ok (get_season_rankings K row drivers).
Proof.
  intros Hb Hc Hmax.
  rewrite (circuit_rankings_first_match K row drivers before after c selection);
    [|rewrite Forall_forall in Hb; exact Hb | exact Hc].
  unfold round_rankings, get_season_rankings. rewrite Hmax. reflexivity.
Qed.

(** X7.  The keys of the standings are distinct whenever the rows of
    the last round have distinct positions. *)
Theorem season_rankings_keys_distinct (drivers : Frame R) :
  NoDup
    (map (fun p => Driver.position (row (snd p)))
       (last_round_rows row drivers)) ->
  NoDup (map fst (get_season_rankings K row drivers)).
Proof.
  intros Hnd. rewrite season_rankings_unfold. unfold set_index.
  rewrite map_map. cbn [fst].
  eapply Permutation_NoDup; [|exact Hnd].
  apply Permutation_sym, Permutation_map, sort_values_perm.
Qed.

(** X8.  In the chart of the standings every driver is labelled with
    the position the data gives the driver, followed by the forename
    and the surname. *)
Theorem standings_labels_carry_position (drivers : Frame R) :
  Forall
    (fun p : Z * Named =>
       snd (snd p)
       = (str (Driver.position (fst (snd p))) ++ ". "
          ++ Driver.forename (fst (snd p)) ++ " "
          ++ Driver.surname (fst (snd p)))%string)
    (points_frame row (get_season_rankings K row drivers)).
Proof.
  unfold points_frame. apply Forall_map, Forall_forall.
  intros p Hp. cbn [fst snd].
  pose proof (set_index_keys (fun r => Driver.position (row r))
                (sort_values K (fun r => Driver.points (row r)) false
                   (last_round_rows row drivers))) as Hk.
  rewrite Forall_forall in Hk.
  rewrite season_rankings_unfold in Hp. now rewrite (Hk p Hp).
Qed.
End StandingsTogether.

(** ** Charts over tables with one row per driver code *)

Lemma filter_none {A : Type} (f : A -> bool) (l : list A) :
  (forall a, In a l -> f a = false) -> filter f l = [].
Proof.
  induction l as [|a l IH]; intros H; [reflexivity|].
  simpl. rewrite (H a) by now left. apply IH. intros b Hb. apply H. now right.
Qed.

Section DistinctColours.
Context {R : Type} (color : R -> string).

Lemma filter_colour_single (df : Frame R) (p : Z * R) :
  NoDup (map (fun q => color (snd q)) df) -> In p df ->
  filter (fun q => String.eqb (color (snd q)) (color (snd p))) df = [p].
Proof.
  induction df as [|q df IH]; intros Hnd Hin; [destruct Hin|].
  simpl in Hnd. apply NoDup_cons_iff in Hnd. destruct Hnd as [Hq Hnd].
  simpl. destruct Hin as [-> | Hin].
  - rewrite String.eqb_refl. f_equal. apply filter_none.
    intros a Ha. apply String.eqb_neq. intros E. apply Hq.
    apply in_map_iff. now exists a.
  - destruct (String.eqb_spec (color (snd q)) (color (snd p))) as [E | _].
    + exfalso. apply Hq. apply in_map_iff. now exists p.
    + now apply IH.
Qed.

(** With distinct values in the colour column every row is a group of
    its own, in the order of the frame. *)
Lemma px_groups_distinct (df : Frame R) :
  NoDup (map (fun q => color (snd q)) df) ->
  px_groups color [] df = map (fun p => (color (snd p), [p])) df.
Proof.
  intros Hnd. unfold px_groups, category_order. cbn [app].
  rewrite (unique_NoDup_id (unique _)) by apply unique_NoDup.
  rewrite unique_NoDup_id by exact Hnd.
  assert (H : forall l, incl l df ->
            flat_map
              (fun c =>
                 match filter (fun p => String.eqb (color (snd p)) c) df with
                 | [] => []
                 | rows => [(c, rows)]
                 end)
              (map (fun q => color (snd q)) l)
            = map (fun p => (color (snd p), [p])) l).
  { induction l as [|p l IH]; intros Hl; [reflexivity|].
    cbn [map flat_map]. rewrite IH by (intros a Ha; apply Hl; now right).
    rewrite filter_colour_single; [reflexivity | exact Hnd |].
    apply Hl. now left. }
  apply H, incl_refl.
Qed.
End DistinctColours.

Section ChartsInOrder.
Variable K : SortKind.
Context {R : Type} (row : R -> Driver.t).

(** X9.  When no two rows of the rankings have the same driver code,
    the bar chart has one bar per row, in the order of the rankings. *)
Theorem points_chart_in_rankings_order (rankings : Frame R) :
  NoDup (map (fun p => Driver.code (row (snd p))) rankings) ->
  bar_traces (points_chart row rankings)
  = map (fun p => (Driver.code (fst (snd p)), [bar_of p]))
      (points_frame row rankings).
Proof.
  intros Hnd. rewrite points_chart_traces.
  rewrite (px_groups_distinct (fun r : Named => Driver.code (fst r))).
  - rewrite map_map. reflexivity.
  - unfold points_frame. rewrite map_map. exact Hnd.
Qed.

Lemma progression_frame_codes (drivers : Frame R) (c : string) :
  (exists p, In p (progression_frame K row drivers)
             /\ Driver.code (fst (snd p)) = c)
  <-> (exists p, In p drivers /\ Driver.code (row (snd p)) = c).
Proof.
  unfold progression_frame. split.
  - intros (p & Hp & E). apply in_map_iff in Hp.
    destruct Hp as (p0 & <- & Hp0). exists p0. split; [|exact E].
    eapply Permutation_in; [apply sort_values_perm | exact Hp0].
  - intros (p & Hp & E).
    eexists. split.
    + apply in_map_iff. exists p. split; [reflexivity|].
      eapply Permutation_in;
        [apply Permutation_sym, sort_values_perm | exact Hp].
    + exact E.
Qed.

(** X10.  When the legend order lists each driver code of the table
    once and nothing else, the lines of the progression chart are in
    exactly that order. *)
Theorem progression_legend_is_code_order (drivers : Frame R)
    (rankings : list string) :
  NoDup rankings ->
  (forall c,
      In c rankings
      <-> exists p, In p drivers /\ Driver.code (row (snd p)) = c) ->
  map fst (line_traces (progression_chart K row drivers rankings)) = rankings.
Proof.
  intros Hnd Hcodes.
  rewrite progression_chart_traces, map_map. cbn [fst].
  change (map (fun x => fst x) ?l) with (map fst l).
  rewrite (px_groups_names (fun r : Named => Driver.code (fst r))).
  rewrite unique_NoDup_id by exact Hnd.
  rewrite (filter_none (fun c => negb (mem c rankings))), app_nil_r.
  - apply forallb_filter_id, forallb_forall. intros c Hc.
    apply occurs_In. apply progression_frame_codes. now apply Hcodes.
  - intros c Hc. apply (proj1 (unique_In _ _)) in Hc.
    apply in_map_iff in Hc. destruct Hc as (p & E & Hp).
    apply negb_false_iff, mem_In, Hcodes.
    apply progression_frame_codes. now exists p.
Qed.
End ChartsInOrder.

(** ** Complete runs of the script *)

Lemma filter_year_some_row {R : Type} (year_of : R -> Z) (rows : list R)
    (year : Z) :
  (exists r, In r rows /\ year_of r = year) ->
  filter_year year_of (read_csv rows) year <> [].
Proof.
  intros (r & Hr & E) Hnil.
  assert (H : In r (map snd (filter_year year_of (read_csv rows) year))).
  { unfold filter_year, read_csv.
    rewrite (enumerate_from_filter (fun r => year_of r =? year)).
    apply filter_In. split; [exact Hr | now apply Z.eqb_eq]. }
  rewrite Hnil in H. exact H.
Qed.

Lemma year_rows_or_none (drivers_csv : list Driver.t) (year : Z) :
  (exists d, In d drivers_csv /\ Driver.year d = year)
  \/ (forall d, In d drivers_csv -> Driver.year d <> year).
Proof.
  induction drivers_csv as [|d l IH].
  - right. intros d [].
  - destruct (Z.eq_dec (Driver.year d) year) as [E | N].
    + left. exists d. split; [now left | exact E].
    + destruct IH as [(d' & Hd' & E) | Hno].
      * left. exists d'. split; [now right | exact E].
      * right. intros d' [<- | Hd']; [exact N | now apply Hno].
Qed.

Section Runs.
Variable K : SortKind.
Variables (circuits_csv : list Circuit.t) (drivers_csv : list Driver.t).
Variable year : Z.

(** The year's tables as the script derives them. *)
Definition year_circuits : Frame Circuit.t :=
  filter_year Circuit.year (read_csv circuits_csv) year.
Definition year_drivers : Frame Driver.t :=
  filter_year Driver.year (read_csv drivers_csv) year.
Definition year_rankings : Frame Driver.t :=
  get_season_rankings K id year_drivers.

(** The page of a complete run, given the text of the banner. *)
Definition complete_page (text : string) : list (container * element) :=
  [(Sidebar, Selectbox "Select the year you want to explore" year_options 0);
   (MainArea, Image "img/f1_logo.png" 300);
   (MainArea, Title ("Formula 1 Season " ++ str year));
   (Sidebar, Text "Circuits in the season");
   (Sidebar, Table (races_table K year_circuits));
   (MainArea, Markdown text true);
   (MainArea, GeoChart (world_map year_circuits) true);
   (Column 1,
    Markdown
      ("<div style='text-align: center; font-size: 20px;'>"
       ++ "Driver Progression</div>")
      true);
   (Column 1,
    LineChart
      (progression_chart K id year_drivers
         (map (fun p => Driver.code (snd p)) year_rankings))
      true);
   (Column 2,
    Markdown
      ("<div style='text-align: center; font-size: 20px;'>"
       ++ "Final Driver Standings</div>")
      true);
   (Column 2, BarChart (points_chart id year_rankings) true)].

Lemma script_result_with_rows :
  (exists d, In d drivers_csv /\ Driver.year d = year) ->
  fst (script K circuits_csv drivers_csv (Some year) start) = Ok tt.
Proof.
  intros Hrows.
  assert (Hne : year_drivers <> []).
  { apply filter_year_some_row. exact Hrows. }
  destruct (season_rankings_head K id year_drivers Hne)
    as (w & rest & Hout & _).
  destruct (winner_text_cons id w rest) as (text & Htext).
  rewrite <- Hout in Htext. unfold year_drivers in Htext.
  run_script. rewrite Htext. reflexivity.
Qed.

Lemma script_run_without_rows :
  (forall d, In d drivers_csv -> Driver.year d <> year) ->
  fst (script K circuits_csv drivers_csv (Some year) start) = Raise IndexError.
Proof.
  intros Hno.
  assert (Hf : filter_year Driver.year (read_csv drivers_csv) year = []).
  { apply filter_year_no_rows. unfold read_csv.
    rewrite enumerate_from_rows. exact Hno. }
  run_script. rewrite Hf, get_season_rankings_nil. reflexivity.
Qed.

(** X11.  When the selected year has a driver row, the run completes:
    the page holds, in this order, the selector, the logo, the title,
    the caption and table of the circuits, the winner banner, the world
    map and the two captioned charts, the progression chart taking its
    legend order from the standings; and the heap holds the two loaded
    tables unchanged, the year's circuits, the year's drivers sorted by
    round with the name column, and the standings with the name
    column. *)
Theorem script_year_with_rows :
  (exists d, In d drivers_csv /\ Driver.year d = year) ->
  exists text,
    winner_text id year_rankings = Ok text
    /\ script K circuits_csv drivers_csv (Some year) start
       = (Ok tt,
          {| heap :=
               [Circuits (read_csv circuits_csv);
                Drivers (read_csv drivers_csv);
                Circuits year_circuits;
                DriversNamed (progression_frame K id year_drivers);
                DriversNamed (points_frame id year_rankings)];
             page := complete_page text |}).
Proof.
  intros Hrows.
  assert (Hne : year_drivers <> []).
  { apply filter_year_some_row. exact Hrows. }
  destruct (season_rankings_head K id year_drivers Hne)
    as (w & rest & Hout & _).
  destruct (winner_text_cons id w rest) as (text & Htext).
  fold year_rankings in Hout. rewrite <- Hout in Htext.
  exists text. split; [exact Htext|].
  unfold complete_page, year_rankings, year_drivers, year_circuits in *.
  run_script. rewrite Htext. reflexivity.
Qed.

(** X12.  A run completes exactly when the loaded driver table has a
    row of the selected year, and a run that does not complete ends
    with [IndexError]. *)
Theorem script_completes_iff_year_has_rows :
  (fst (script K circuits_csv drivers_csv (Some year) start) = Ok tt
   <-> exists d, In d drivers_csv /\ Driver.year d = year)
  /\ (fst (script K circuits_csv drivers_csv (Some year) start) = Ok tt
      \/ fst (script K circuits_csv drivers_csv (Some year) start)
         = Raise IndexError).
Proof.
  destruct (year_rows_or_none drivers_csv year) as [Hrows | Hno].
  - rewrite (script_result_with_rows Hrows). split; [|now left].
    split; [intros _; exact Hrows | reflexivity].
  - rewrite (script_run_without_rows Hno). split; [|now right]. split.
    + discriminate.
    + intros (d & Hd & E). exfalso. exact (Hno d Hd E).
Qed.
End Runs.

(** X13.  Every row of the standings the script derives for a year is
    a row of the driver file, of that year, and of the latest round the
    file has for that year. *)
Theorem year_rankings_rows (K : SortKind) (drivers_csv : list Driver.t)
    (year : Z) :
  Forall
    (fun p : Z * Driver.t =>
       In (snd p) drivers_csv
       /\ Driver.year (snd p) = year
       /\ (forall d,
             In d drivers_csv -> Driver.year d = year ->
             Driver.round d <= Driver.round (snd p)))
    (year_rankings K drivers_csv year).
Proof.
  apply Forall_forall. intros p Hp.
  assert (Hrows : map snd (year_drivers drivers_csv year)
                  = filter (fun r => Driver.year r =? year) drivers_csv).
  { unfold year_drivers, filter_year, read_csv.
    apply (enumerate_from_filter (fun r => Driver.year r =? year)). }
  assert (Hsel : In (snd p)
                   (map snd
                      (last_round_rows id (year_drivers drivers_csv year)))).
  { unfold year_rankings in Hp. rewrite season_rankings_unfold in Hp.
    apply (in_map snd) in Hp. rewrite set_index_rows in Hp.
    eapply Permutation_in; [|exact Hp].
    apply Permutation_map, sort_values_perm. }
  apply in_map_iff in Hsel. destruct Hsel as (q & Eq & Hq).
  unfold last_round_rows in Hq. apply filter_In in Hq.
  destruct Hq as [Hq Hmax]. unfold id in Hmax.
  assert (Hqrow : In (snd q)
                    (filter (fun r => Driver.year r =? year) drivers_csv)).
  { rewrite <- Hrows. now apply in_map. }
  apply filter_In in Hqrow. destruct Hqrow as [Hin Hyear].
  rewrite <- Eq. split; [exact Hin|]. split; [now apply Z.eqb_eq|].
  intros d Hd Ed.
  destruct (series_max_spec
              (map (fun p => Driver.round (snd p))
                 (year_drivers drivers_csv year)))
    as (m & Hm & _ & Hle).
  { intros E. apply map_eq_nil in E. now rewrite E in Hq. }
  rewrite Hm in Hmax. simpl in Hmax. apply Z.eqb_eq in Hmax. rewrite Hmax.
  rewrite Forall_forall in Hle. apply Hle.
  assert (Hdrow : In d (map snd (year_drivers drivers_csv year))).
  { rewrite Hrows. apply filter_In. split; [exact Hd | now apply Z.eqb_eq]. }
  apply in_map_iff in Hdrow. destruct Hdrow as (q' & <- & Hq').
  apply in_map_iff. now exists q'.
Qed.

(** ** Helpers that leave the tables alone *)

(** X14.  [filter_year] and [get_season_rankings] never change a table
    that exists: whatever reference they are given, the heap after the
    call is the heap before it with at most new objects at the end.
    [show_races], [show_winner_text] and the reading of the code column
    leave the heap exactly as it is. *)
Theorem helpers_leave_tables (K : SortKind) (l : loc) (s : session) :
  (forall year, exists new,
      heap (snd (filter_year_ref l year s)) = (heap s ++ new)%list)
  /\ (exists new,
        heap (snd (get_season_rankings_ref K l s)) = (heap s ++ new)%list)
  /\ (forall c, heap (snd (show_races K c l s)) = heap s)
  /\ heap (snd (show_winner_text l s)) = heap s
  /\ heap (snd (code_tolist l s)) = heap s.
Proof.
  split; [|split; [|split; [|split]]].
  - intros year. unfold filter_year_ref, bind, deref.
    destruct (nth_error (heap s) l) as [[rows | rows | rows]|];
      cbn [snd alloc heap]; eexists; try reflexivity.
    now rewrite app_nil_r.
  - unfold get_season_rankings_ref, bind, deref.
    destruct (nth_error (heap s) l) as [[rows | rows | rows]|];
      cbn [snd alloc raise heap]; eexists; try reflexivity;
      now rewrite app_nil_r.
  - intros c. unfold show_races, bind, deref.
    destruct (nth_error (heap s) l) as [[rows | rows | rows]|]; reflexivity.
  - unfold show_winner_text, bind, deref.
    destruct (nth_error (heap s) l) as [[rows | rows | rows]|];
      try reflexivity.
    + destruct (winner_text id rows); reflexivity.
    + destruct (winner_text fst rows); reflexivity.
  - unfold code_tolist, bind, deref.
    destruct (nth_error (heap s) l) as [[rows | rows | rows]|]; reflexivity.
Qed.

(** ** Instances *)

(** The last race of 2021 as the only circuit row. *)
Definition last_race : Z * Circuit.t :=
  (0, Circuit.mk 2021 22 "Yas Marina" "UAE" (24 # 1) (54 # 1)).


(** The rankings at the last race of 2021 are the season rankings. *)
Lemma circuit_rankings_of_last_round_witness :
  Forall (fun c' : Z * Circuit.t => Circuit.name (snd c') <> "Yas Marina") []
  /\ Circuit.name (snd last_race) = "Yas Marina"
  /\ series_max (map (fun p => Driver.round (id (snd p))) level_on_points)
     = Some (Circuit.round (snd last_race))
  /\ get_circuit_rankings kind_stable id level_on_points [last_race]
       "Yas Marina"
     = Ok (get_season_rankings kind_stable id level_on_points).
Proof.
  split; [constructor|]. split; [reflexivity|]. split; [reflexivity|].
  apply (circuit_rankings_of_last_round kind_stable id level_on_points []
           [] last_race "Yas Marina");
    [constructor | reflexivity | reflexivity].
Defined.

Lemma level_on_points_positions :
  NoDup
    (map (fun p => Driver.position (id (snd p)))
       (last_round_rows id level_on_points)).
Proof.
  change (NoDup [20; 21]).
  constructor; [intros [H | []]; discriminate|].
  constructor; [intros []|]. constructor.
Qed.

(** The two drivers are keyed 20 and 21. *)
Lemma season_rankings_keys_distinct_witness :
  NoDup
    (map (fun p => Driver.position (id (snd p)))
       (last_round_rows id level_on_points))
  /\ NoDup (map fst (get_season_rankings kind_stable id level_on_points)).
Proof.
  split; [exact level_on_points_positions|].
  exact (season_rankings_keys_distinct kind_stable id level_on_points
           level_on_points_positions).
Defined.

Lemma level_on_points_codes :
  NoDup (map (fun p => Driver.code (id (snd p))) level_on_points).
Proof.
  change (NoDup ["AAA"; "BBB"]).
  constructor; [intros [H | []]; discriminate|].
  constructor; [intros []|]. constructor.
Qed.

(** One bar for each of the two drivers, in their order. *)
Lemma points_chart_in_rankings_order_witness :
  NoDup (map (fun p => Driver.code (id (snd p))) level_on_points)
  /\ map fst (bar_traces (points_chart id level_on_points)) = ["AAA"; "BBB"].
Proof.
  split; [exact level_on_points_codes|].
  rewrite (points_chart_in_rankings_order id level_on_points
             level_on_points_codes).
  reflexivity.
Defined.

Lemma level_on_points_code_order (c : string) :
  In c ["BBB"; "AAA"]
  <-> exists p, In p level_on_points /\ Driver.code (id (snd p)) = c.
Proof.
  split.
  - intros [<- | [<- | []]].
    + eexists. split; [right; left; reflexivity | reflexivity].
    + eexists. split; [left; reflexivity | reflexivity].
  - intros (p & [<- | [<- | []]] & <-); simpl; auto.
Qed.

(** The legend of the two drivers in the order asked for. *)
Lemma progression_legend_is_code_order_witness :
  NoDup ["BBB"; "AAA"]
  /\ map fst
       (line_traces
          (progression_chart kind_stable id level_on_points ["BBB"; "AAA"]))
     = ["BBB"; "AAA"].
Proof.
  assert (Hnd : NoDup ["BBB"; "AAA"]).
  { constructor; [intros [H | []]; discriminate|].
    constructor; [intros []|]. constructor. }
  split; [exact Hnd|].
  exact (progression_legend_is_code_order kind_stable id level_on_points
           ["BBB"; "AAA"] Hnd level_on_points_code_order).
Defined.

(** The run for 2021 over one circuit and one driver of 2021. *)
Lemma script_year_with_rows_witness :
  (exists d,
      In d [Driver.mk 2021 22 "VER" "Max" "Verstappen" 33 (791 # 2) 1]
      /\ Driver.year d = 2021)
  /\ fst (script kind_stable [snd last_race]
            [Driver.mk 2021 22 "VER" "Max" "Verstappen" 33 (791 # 2) 1]
            (Some 2021) start)
     = Ok tt.
Proof.
  assert (H : exists d,
             In d [Driver.mk 2021 22 "VER" "Max" "Verstappen" 33 (791 # 2) 1]
             /\ Driver.year d = 2021).
  { eexists. split; [left; reflexivity | reflexivity]. }
  split; [exact H|].
  destruct (script_year_with_rows kind_stable [snd last_race]
              [Driver.mk 2021 22 "VER" "Max" "Verstappen" 33 (791 # 2) 1]
              2021 H) as (text & _ & E).
  rewrite E. reflexivity.
Defined.
